(** * The kpt v2 deployer of skaffold: Kptfile reconciliation and deploy

    Shallow embedding of [pkg/skaffold/deploy/v2/kpt/kpt.go].  The Go code
    is effectful: it stats, reads and rewrites the Kptfile, starts [kpt]
    processes, logs warnings, sends deploy events and mutates the [Deployer]
    it is given through a pointer.  The embedding threads one explicit
    [State] (file system, the world outside of it, the Deployer, and the
    chronological log of observable effects) through a small state monad.

    What lives outside of kpt.go (the [kpt] binary, the yaml encoder, the
    manifest package, [filepath.Join]) is a field of the [Platform] record,
    so every theorem holds for every behaviour of these collaborators.
    Tracing spans, the [context.Context] and the writer that receives the
    output of the processes have no effect on what the functions decide and
    are left out. *)

From stdpp Require Import base strings list gmap.

Open Scope string_scope.
Open Scope list_scope.   (* [++] is list append; strings are joined with [+:+] *)

(** ** Errors *)

(** Modelled from the spec: the error constructors [pkgInitErr],
    [openFileErr], [parseFileErr], [liveInitErr], [liveApplyErr],
    [liveDestroyErr] and [sourceErr] are declared in a file of the package
    that is not part of the sources at hand.  The spec names them
    InitializationError, IOError, ParseError, LiveInitError, ApplyError,
    DestroyError and RenderError and says that each carries the failure and
    the offending directory or file path.

    [runtimePanic] is no error value.  It stands for a run-time panic,
    which ends the function that raises it and, since nothing in this
    file recovers, each of its callers at once; the model hands it up
    through their early returns, which have the same effect. *)
Inductive Error : Type :=
| extErr (msg : string)                    (* an error made by os, exec, yaml, ... *)
| Errorf (msg : string) (wrapped : Error)  (* fmt.Errorf("msg: %w", err) *)
| pkgInitErr (err : Error) (dir : string)
| openFileErr (err : Error) (path : string)
| parseFileErr (err : Error) (path : string)
| liveInitErr (err : Error) (dir : string)
| liveApplyErr (err : Error) (dir : string)
| liveDestroyErr (err : Error) (dir : string)
| sourceErr (err : Error) (dir : string)
| runtimePanic (msg : string).

(** ** The Kptfile *)

Module kptfile.

(** Modelled from the spec: the constant [kptfile.KptFileName]. *)
Definition KptFileName : string := "Kptfile".

(** Modelled from the spec: the [inventory] block with its [id], [name]
    and [namespace] keys; [other] stands for the other fields of the
    struct. *)
Record Inventory_t : Type := mkInventory {
  Namespace : string;
  Name : string;
  InventoryID : string;
  other : string
}.

(** Modelled from the spec: the state file.  [Inventory] is a pointer in
    Go (to the struct [Inventory], here [Inventory_t] since a record and
    its field cannot share a name); [None] is the nil pointer, the
    uninitialized ownership of the spec; [rest] stands for the other
    fields of the struct.  What a file holds besides the fields of the
    struct (comments, keys the struct does not know) is no part of a
    [KptFile]: the decoder drops it. *)
Record KptFile : Type := mkKptFile {
  rest : string;
  Inventory : option Inventory_t
}.

Definition set_Inventory (kf : KptFile) (inv : Inventory_t) : KptFile :=
  {| rest := rest kf; Inventory := Some inv |}.
Definition set_InventoryID (inv : Inventory_t) (v : string) :=
  {| Namespace := Namespace inv; Name := Name inv; InventoryID := v; other := other inv |}.
Definition set_Name (inv : Inventory_t) (v : string) :=
  {| Namespace := Namespace inv; Name := v; InventoryID := InventoryID inv; other := other inv |}.
Definition set_Namespace (inv : Inventory_t) (v : string) :=
  {| Namespace := v; Name := Name inv; InventoryID := InventoryID inv; other := other inv |}.

End kptfile.

(** What a path of the file system holds, seen through the two library
    calls of the reconciler: [openFile] fails on [Unreadable]; the yaml
    decoder fails on [Garbage]; on [Null], a file whose document is the
    yaml null, the decoder returns no error and sets the pointer it is
    given to nil; [Doc text kf] is a file with the bytes [text], which
    decode to the struct [kf]. *)
Inductive File : Type :=
| Unreadable (err : Error)
| Garbage (err : Error)
| Null
| Doc (text : string) (kf : kptfile.KptFile).

(** ** The deployer *)

Module latestV2.

(** The fields of the [KptV2Deploy] schema that kpt.go reads or writes. *)
Record KptV2Deploy : Type := mkKptV2Deploy {
  Dir : string;
  ApplyFlags : list string;
  Flags : list string;
  Name : string;
  InventoryID : string;
  InventoryNamespace : string;
  Force : bool
}.

Definition set_InventoryNamespace (d : KptV2Deploy) (v : string) : KptV2Deploy :=
  {| Dir := Dir d; ApplyFlags := ApplyFlags d; Flags := Flags d; Name := Name d;
     InventoryID := InventoryID d; InventoryNamespace := v; Force := Force d |}.

End latestV2.

Module graph.
Record Artifact : Type := mkArtifact { ImageName : string; Tag : string }.
End graph.

(** [Deployer]: the embedded schema, the directory and the per-unit
    namespace.  The accessor, logger, debugger, monitor, syncer and the
    kube-context strings are handles that the functions below never touch. *)
Record Deployer : Type := mkDeployer {
  KptV2Deploy : latestV2.KptV2Deploy;
  applyDir : string;
  namespace : string
}.

Definition set_namespace (k : Deployer) (v : string) : Deployer :=
  {| KptV2Deploy := KptV2Deploy k; applyDir := applyDir k; namespace := v |}.
Definition set_InventoryNamespace (k : Deployer) (v : string) : Deployer :=
  {| KptV2Deploy := latestV2.set_InventoryNamespace (KptV2Deploy k) v;
     applyDir := applyDir k; namespace := namespace k |}.

Definition deployerName : string := "kptV2".
Definition defaultNs : string := "default".

(** ** Observable effects *)

(** One entry per effect, in the order in which the code performs them.
    A started process records the file system it was started on. *)
Inductive Event : Type :=
| EvRunCmd (args : list string) (fs : gmap string File)  (* exec "kpt" args... *)
| EvWarn (msg : string)                                  (* logrus.Warnf *)
| EvWriteFile (path : string) (kf : kptfile.KptFile)     (* ioutil.WriteFile of kf *)
| EvDeployInfo (err : Error)                             (* event.DeployInfoEvent *)
| EvTrackBuildArtifacts (builds : list graph.Artifact).  (* k.TrackBuildArtifacts *)

(** ** Collaborators *)

Record CmdOutcome (Ext : Type) : Type := mkCmdOutcome {
  stdout : string;
  exit_err : option Error;
  files_after : gmap string File;
  outside_after : Ext
}.
Arguments mkCmdOutcome {Ext}.
Arguments stdout {Ext}.
Arguments exit_err {Ext}.
Arguments files_after {Ext}.
Arguments outside_after {Ext}.

(** [Ext] is the state of everything that is neither the file system nor
    the Deployer (the cluster, the kube context, the clock). *)
Record Platform (Ext : Type) : Type := mkPlatform {
  (* path/filepath *)
  filepath_Join : string → string → string;
  (* a run of the kpt binary with the given arguments *)
  kpt : list string → gmap string File → Ext → CmdOutcome Ext;
  (* yaml.Marshal: [Some err] when it fails *)
  yaml_Marshal_err : kptfile.KptFile → option Error;
  (* yaml.Marshal: the bytes when it succeeds; they decode to the struct *)
  yaml_Marshal_text : kptfile.KptFile → string;
  (* ioutil.WriteFile: [Some (err, fs')] when it fails, leaving [fs'] *)
  WriteFile_fault : string → gmap string File → Ext → option (Error * gmap string File);
  (* framework.ResourceList.Read followed by String() on each item *)
  ResourceList_Read : string → Error + list (Error + string);
  (* manifest.ManifestList.Append *)
  ManifestList_Append : list string → string → list string;
  (* manifest.ManifestList.CollectNamespaces; [None] is the nil slice *)
  CollectNamespaces : list string → option (list string) * option Error
}.
Arguments filepath_Join {Ext}.
Arguments kpt {Ext}.
Arguments yaml_Marshal_err {Ext}.
Arguments yaml_Marshal_text {Ext}.
Arguments WriteFile_fault {Ext}.
Arguments ResourceList_Read {Ext}.
Arguments ManifestList_Append {Ext}.
Arguments CollectNamespaces {Ext}.

(** ** State and monad *)

Record State (Ext : Type) : Type := mkState {
  files : gmap string File;
  outside : Ext;
  self : Deployer;          (* the object behind the pointer [k] *)
  log : list Event
}.
Arguments mkState {Ext}.
Arguments files {Ext}.
Arguments outside {Ext}.
Arguments self {Ext}.
Arguments log {Ext}.

Definition M (Ext A : Type) : Type := State Ext → A * State Ext.

#[global] Instance M_ret {Ext} : MRet (M Ext) := λ A a s, (a, s).
#[global] Instance M_bind {Ext} : MBind (M Ext) :=
  λ A B f m s, let (a, s') := m s in f a s'.

Section Primitives.
Context {Ext : Type} (P : Platform Ext).

Definition emit (ev : Event) : M Ext unit := λ s,
  (tt, mkState (files s) (outside s) (self s) (log s ++ [ev])).

(** Reads and writes of the struct behind [k]. *)
Definition get_k : M Ext Deployer := λ s, (self s, s).
Definition put_k (k : Deployer) : M Ext unit := λ s,
  (tt, mkState (files s) (outside s) k (log s)).

(** [os.Stat] followed by [os.IsNotExist]. *)
Definition os_Stat_IsNotExist (path : string) : M Ext bool := λ s,
  (bool_decide (files s !! path = None), s).

(** [openFile] (which is [os.Open]) and then [yaml.NewDecoder(file).Decode]:
    the file as the reconciler gets to see it. *)
Definition ENOENT : Error := extErr "no such file or directory".
Definition openFile (path : string) : M Ext (option File) := λ s,
  (files s !! path, s).

(** [util.RunCmd] and [util.RunCmdOut] on [exec.CommandContext(ctx, "kpt",
    args...)]: the process runs to its end, may change the file system
    and the outside world, and gives its output and exit error. *)
Definition RunCmdOut (args : list string) : M Ext (string * option Error) := λ s,
  let o := kpt P args (files s) (outside s) in
  ((stdout o, exit_err o),
   mkState (files_after o) (outside_after o) (self s)
           (log s ++ [EvRunCmd args (files s)])).
Definition RunCmd (args : list string) : M Ext (option Error) :=
  r ← RunCmdOut args; mret r.2.

(** [ioutil.WriteFile] of [data], the bytes that [yaml.Marshal] made of
    [kf]: the file is replaced as a whole, whatever it held.  That the
    bytes decode to [kf] again at the next run is the round trip of the
    yaml library, which this model takes as given. *)
Definition WriteFile (path : string) (data : string) (kf : kptfile.KptFile)
  : M Ext (option Error) := λ s,
  match WriteFile_fault P path (files s) (outside s) with
  | Some (err, fs') =>
      (Some err, mkState fs' (outside s) (self s) (log s ++ [EvWriteFile path kf]))
  | None =>
      (None, mkState (<[path := Doc data kf]> (files s)) (outside s) (self s)
                     (log s ++ [EvWriteFile path kf]))
  end.

Definition Warnf (msg : string) : M Ext unit := emit (EvWarn msg).
Definition DeployInfoEvent (err : Error) : M Ext unit := emit (EvDeployInfo err).

End Primitives.

(** ** The functions of kpt.go *)

Section Kpt.
Context {Ext : Type} (P : Platform Ext).

(* The promoted fields of the embedded [*latestV2.KptV2Deploy]. *)
Definition Name (k : Deployer) : string := latestV2.Name (KptV2Deploy k).
Definition InventoryID (k : Deployer) : string := latestV2.InventoryID (KptV2Deploy k).
Definition InventoryNamespace (k : Deployer) : string :=
  latestV2.InventoryNamespace (KptV2Deploy k).
Definition Force (k : Deployer) : bool := latestV2.Force (KptV2Deploy k).
Definition Flags (k : Deployer) : list string := latestV2.Flags (KptV2Deploy k).
Definition ApplyFlags (k : Deployer) : list string := latestV2.ApplyFlags (KptV2Deploy k).

(** [TrackBuildArtifacts] hands the artifacts to the pod selector and to
    the logger, both outside of this file. *)
Definition TrackBuildArtifacts (artifacts : list graph.Artifact) : M Ext unit :=
  emit (EvTrackBuildArtifacts artifacts).

(** The loop of [getManifests] over [rl.Items]. *)
Fixpoint items_String (items : list (Error + string)) (newBuf : string) : Error + string :=
  match items with
  | [] => inr newBuf
  | inl err :: _ => inl err
  | inr item :: items => items_String items (newBuf +:+ item)
  end.

(** [getManifests]; the nil [ManifestList] of the error returns is the
    empty list. *)
Definition getManifests : M Ext (list string * option Error) :=
  k ← get_k;
  r ← RunCmdOut P ["fn"; "source"; applyDir k];
  let buf := r.1 in
  match r.2 with
  | Some err => mret ([], Some (sourceErr err (applyDir k)))
  | None =>
    match ResourceList_Read P buf with
    | inl err => mret ([], Some (sourceErr err (applyDir k)))
    | inr items =>
      match items_String items "" with
      | inl err => mret ([], Some (sourceErr err (applyDir k)))
      | inr newBuf =>
        let manifests : list string := [] in
        let manifests :=
          if decide (0 < String.length buf) then ManifestList_Append P manifests newBuf
          else manifests in
        mret (manifests, None)
      end
    end
  end.

(** The argument list of [kpt live init], as the bootstrap branch of
    [kptfileInitIfNot] builds it. *)
Definition liveInitArgs (k : Deployer) : list string :=
  let args := ["live"; "init"; applyDir k] in
  let args := args ++ Flags k in
  let args := if decide (Name k ≠ "") then args ++ ["--name"; Name k] else args in
  let args := if decide (InventoryID k ≠ "")
              then args ++ ["--inventory-id"; InventoryID k] else args in
  let args := if decide (namespace k ≠ "") then args ++ ["--namespace"; namespace k]
              else if decide (InventoryNamespace k ≠ "")
                   then args ++ ["--namespace"; InventoryNamespace k] else args in
  let args := if Force k then args ++ ["--force"; "true"] else args in
  args.

(** The message of the panic on a nil pointer. *)
Definition nil_dereference : string :=
  "runtime error: invalid memory address or nil pointer dereference".

(** The local [kptFilePath] of [kptfileInitIfNot]. *)
Definition kptFilePath (k : Deployer) : string :=
  filepath_Join P (applyDir k) kptfile.KptFileName.

(** [kptfileInitIfNot] guarantees the Kptfile is valid.  The result is
    the Go [error]: [None] is nil. *)
Definition kptfileInitIfNot : M Ext (option Error) :=
  k ← get_k;
  let kptFilePath := kptFilePath k in
  notExist ← os_Stat_IsNotExist kptFilePath;
  initErr ← (if notExist : bool then RunCmd P ["pkg"; "init"; applyDir k] else mret None);
  match initErr with
  | Some err => mret (Some (pkgInitErr err (applyDir k)))
  | None =>
    file ← openFile kptFilePath;
    match file with
    | None => mret (Some (openFileErr ENOENT kptFilePath))
    | Some (Unreadable err) => mret (Some (openFileErr err kptFilePath))
    | Some (Garbage err) => mret (Some (parseFileErr err kptFilePath))
    | Some Null =>
      (* kfConfig is nil and [kfConfig.Inventory] dereferences it *)
      mret (Some (runtimePanic nil_dereference))
    | Some (Doc _ kfConfig) =>
      match kptfile.Inventory kfConfig with
      | None =>
        err ← RunCmd P (liveInitArgs k);
        match err with
        | Some err => mret (Some (liveInitErr err (applyDir k)))
        | None => mret None
        end
      | Some inv =>
        inv ← (if decide (InventoryID k ≠ "" ∧ InventoryID k ≠ kptfile.InventoryID inv)
               then Warnf ("Updating Kptfile inventory from " +:+ kptfile.InventoryID inv
                             +:+ " to " +:+ InventoryID k);;
                    mret (kptfile.set_InventoryID inv (InventoryID k))
               else mret inv);
        inv ← (if decide (Name k ≠ "" ∧ Name k ≠ kptfile.Name inv)
               then Warnf ("Updating Kptfile name from " +:+ kptfile.Name inv
                             +:+ " to " +:+ Name k);;
                    mret (kptfile.set_Name inv (Name k))
               else mret inv);
        (if decide (namespace k = "") then put_k (set_namespace k defaultNs) else mret tt);;
        k ← get_k;
        (if decide (InventoryNamespace k = "")
         then put_k (set_InventoryNamespace k defaultNs) else mret tt);;
        k ← get_k;
        inv ← (if decide (namespace k ≠ kptfile.Namespace inv)
               then Warnf ("Updating Kptfile namespace from " +:+ kptfile.Namespace inv
                             +:+ " to " +:+ namespace k);;
                    mret (kptfile.set_Namespace inv (namespace k))
               else if decide (InventoryNamespace k ≠ kptfile.Namespace inv)
               then Warnf ("Updating Kptfile namespace from " +:+ kptfile.Namespace inv
                             +:+ " to " +:+ InventoryNamespace k);;
                    mret (kptfile.set_Namespace inv (InventoryNamespace k))
               else mret inv);
        let kfConfig := kptfile.set_Inventory kfConfig inv in
        match yaml_Marshal_err P kfConfig with
        | Some err => mret (Some err)
        | None =>
          let configByte := yaml_Marshal_text P kfConfig in
          err ← WriteFile P kptFilePath configByte kfConfig;
          match err with
          | Some err => mret (Some err)
          | None => mret None
          end
        end
      end
    end
  end.

(** The package variable [kptInitFunc]. *)
Definition kptInitFunc : M Ext (option Error) := kptfileInitIfNot.

(** [Deploy]: the namespaces ([None] is the nil slice) and the error. *)
Definition Deploy (builds : list graph.Artifact)
  : M Ext (option (list string) * option Error) :=
  err ← kptInitFunc;
  match err with
  | Some err => mret (None, Some err)
  | None =>
    k ← get_k;
    r ← getManifests;
    let manifests := r.1 in
    match r.2 with
    | Some err =>
        DeployInfoEvent
          (Errorf ("could not read the hydrated manifest from " +:+ applyDir k) err)
    | None => mret tt
    end;;
    let c := CollectNamespaces P manifests in
    let namespaces := c.1 in
    match c.2 with
    | Some err =>
        DeployInfoEvent
          (Errorf ("could not fetch deployed resource namespace. " +:+
                   "This might cause port-forward and deploy health-check to fail") err)
    | None => mret tt
    end;;
    let args := ["live"; "apply"; applyDir k] in
    let args := args ++ Flags k in
    let args := args ++ ApplyFlags k in
    err ← RunCmd P args;
    match err with
    | Some err => mret (None, Some (liveApplyErr err (applyDir k)))
    | None =>
      TrackBuildArtifacts builds;;
      mret (namespaces, None)
    end
  end.

(** [Cleanup] deletes what was deployed by calling [kpt live destroy]. *)
Definition Cleanup : M Ext (option Error) :=
  err ← kptInitFunc;
  match err with
  | Some err => mret (Some err)
  | None =>
    k ← get_k;
    let args := ["live"; "destroy"; applyDir k] in
    let args := args ++ Flags k in
    err ← RunCmd P args;
    match err with
    | Some err => mret (Some (liveDestroyErr err (applyDir k)))
    | None => mret None
    end
  end.

End Kpt.

(** ** Reading the log *)

Definition cmds (evs : list Event) : list (list string) :=
  omap (λ ev, match ev with EvRunCmd args _ => Some args | _ => None end) evs.
Definition writes (evs : list Event) : list (string * kptfile.KptFile) :=
  omap (λ ev, match ev with EvWriteFile p kf => Some (p, kf) | _ => None end) evs.
Definition warnings (evs : list Event) : list string :=
  omap (λ ev, match ev with EvWarn msg => Some msg | _ => None end) evs.
Definition infos (evs : list Event) : list Error :=
  omap (λ ev, match ev with EvDeployInfo err => Some err | _ => None end) evs.
Definition tracked (evs : list Event) : list (list graph.Artifact) :=
  omap (λ ev, match ev with EvTrackBuildArtifacts b => Some b | _ => None end) evs.

(** Which collaborator a command line addresses: its first two words. *)
Definition is_pkg_init (args : list string) : bool :=
  bool_decide (take 2 args = ["pkg"; "init"]).
Definition is_live_init (args : list string) : bool :=
  bool_decide (take 2 args = ["live"; "init"]).
Definition is_live_apply (args : list string) : bool :=
  bool_decide (take 2 args = ["live"; "apply"]).
Definition is_initializer (args : list string) : bool :=
  is_pkg_init args || is_live_init args.

(** The events that a run of [m] from [s] adds to the log. *)
Definition events {Ext A} (m : M Ext A) (s : State Ext) : list Event :=
  drop (length (log s)) (log (m s).2).

(** The state file of [k] holds an inventory block. *)
Definition has_inventory (fs : gmap string File) (path : string) : Prop :=
  ∃ text kf inv, fs !! path = Some (Doc text kf) ∧ kptfile.Inventory kf = Some inv.

(** ** The merge branch as a function

    Lines 230 to 251 of kpt.go read the Deployer and the stored inventory
    and produce the new Deployer, the new inventory and the warnings.
    [kptfileInitIfNot_merge] below proves that the three functions here are
    what the code computes. *)

Definition or_default (ns : string) : string :=
  if decide (ns = "") then defaultNs else ns.

Definition defaulted (k : Deployer) : Deployer :=
  let k := if decide (namespace k = "") then set_namespace k defaultNs else k in
  if decide (InventoryNamespace k = "") then set_InventoryNamespace k defaultNs else k.

Definition id_differs (k : Deployer) (inv : kptfile.Inventory_t) : Prop :=
  InventoryID k ≠ "" ∧ InventoryID k ≠ kptfile.InventoryID inv.
Definition name_differs (k : Deployer) (inv : kptfile.Inventory_t) : Prop :=
  Name k ≠ "" ∧ Name k ≠ kptfile.Name inv.

Definition merged (k : Deployer) (inv : kptfile.Inventory_t) : kptfile.Inventory_t :=
  let inv := if decide (id_differs k inv)
             then kptfile.set_InventoryID inv (InventoryID k) else inv in
  let inv := if decide (name_differs k inv)
             then kptfile.set_Name inv (Name k) else inv in
  if decide (or_default (namespace k) ≠ kptfile.Namespace inv)
  then kptfile.set_Namespace inv (or_default (namespace k))
  else if decide (or_default (InventoryNamespace k) ≠ kptfile.Namespace inv)
       then kptfile.set_Namespace inv (or_default (InventoryNamespace k))
       else inv.

Definition merge_warnings (k : Deployer) (inv : kptfile.Inventory_t) : list string :=
  (if decide (id_differs k inv)
   then ["Updating Kptfile inventory from " +:+ kptfile.InventoryID inv
           +:+ " to " +:+ InventoryID k] else [])
  ++ (if decide (name_differs k inv)
      then ["Updating Kptfile name from " +:+ kptfile.Name inv +:+ " to " +:+ Name k]
      else [])
  ++ (if decide (or_default (namespace k) ≠ kptfile.Namespace inv)
      then ["Updating Kptfile namespace from " +:+ kptfile.Namespace inv
              +:+ " to " +:+ or_default (namespace k)]
      else if decide (or_default (InventoryNamespace k) ≠ kptfile.Namespace inv)
      then ["Updating Kptfile namespace from " +:+ kptfile.Namespace inv
              +:+ " to " +:+ or_default (InventoryNamespace k)]
      else []).

(** ** A scripted platform

    A concrete [Platform] on which the model runs: [kpt pkg init] creates
    a Kptfile without inventory, [kpt live init] adds the inventory block
    from its flags (without [--namespace] the namespace is the one of the
    caller's kube context, which is the state of the outside world here),
    every other command succeeds and changes nothing. *)

Module Scripted.

Definition Join (dir name : string) : string :=
  if decide (dir = "") then name else dir +:+ "/" +:+ name.

Fixpoint flag_value (flag : string) (args : list string) : option string :=
  match args with
  | f :: rest =>
      match rest with
      | v :: _ => if decide (f = flag) then Some v else flag_value flag rest
      | [] => None
      end
  | [] => None
  end.

Definition bare : kptfile.KptFile := kptfile.mkKptFile "info: {}" None.

(** The bytes of a document, as the yaml encoder of this platform and
    the kpt binary write them. *)
Definition render (kf : kptfile.KptFile) : string :=
  kptfile.rest kf +:+
  match kptfile.Inventory kf with
  | None => ""
  | Some inv =>
      "; inventory: {namespace: " +:+ kptfile.Namespace inv
      +:+ ", name: " +:+ kptfile.Name inv
      +:+ ", inventoryID: " +:+ kptfile.InventoryID inv +:+ "}"
  end.
Definition written (kf : kptfile.KptFile) : File := Doc (render kf) kf.

Definition live_init (dir : string) (flags : list string)
    (fs : gmap string File) (ctx_ns : string) : CmdOutcome string :=
  let path := Join dir kptfile.KptFileName in
  match fs !! path with
  | Some (Doc _ kf) =>
      match kptfile.Inventory kf with
      | Some _ =>
          mkCmdOutcome "" (Some (extErr "inventory already exists")) fs ctx_ns
      | None =>
          let inv := kptfile.mkInventory
                       (default ctx_ns (flag_value "--namespace" flags))
                       (default "generated-name" (flag_value "--name" flags))
                       (default "generated-id" (flag_value "--inventory-id" flags))
                       "" in
          mkCmdOutcome "initialized" None
                       (<[path := written (kptfile.set_Inventory kf inv)]> fs) ctx_ns
      end
  | _ => mkCmdOutcome "" (Some (extErr "no Kptfile")) fs ctx_ns
  end.

Definition run (args : list string) (fs : gmap string File) (ctx_ns : string)
  : CmdOutcome string :=
  match args with
  | ["pkg"; "init"; dir] =>
      mkCmdOutcome "created" None (<[Join dir kptfile.KptFileName := written bare]> fs)
                   ctx_ns
  | "live" :: "init" :: dir :: flags => live_init dir flags fs ctx_ns
  | _ => mkCmdOutcome "" None fs ctx_ns
  end.

Definition platform : Platform string :=
  {| filepath_Join := Join;
     kpt := run;
     yaml_Marshal_err := λ _, None;
     yaml_Marshal_text := render;
     WriteFile_fault := λ _ _ _, None;
     ResourceList_Read := λ _, inr [];
     ManifestList_Append := λ l buf, l ++ [buf];
     CollectNamespaces := λ _, (Some [], None) |}.

Definition deployer (dir name id invns ns : string) : Deployer :=
  mkDeployer (latestV2.mkKptV2Deploy dir [] [] name id invns false) dir ns.

Definition start (fs : gmap string File) (ctx_ns : string) (k : Deployer)
  : State string := mkState fs ctx_ns k [].

End Scripted.

(** ** Statements about runs *)

(** The state in which [kpt pkg init] leaves a run that found no Kptfile. *)
Definition after_pkg_init {Ext} (P : Platform Ext) (s : State Ext) : State Ext :=
  let args := ["pkg"; "init"; applyDir (self s)] in
  let o := kpt P args (files s) (outside s) in
  mkState (files_after o) (outside_after o) (self s) (log s ++ [EvRunCmd args (files s)]).

(** The command line of [kpt live apply] in [Deploy]. *)
Definition liveApplyArgs (k : Deployer) : list string :=
  ["live"; "apply"; applyDir k] ++ Flags k ++ ApplyFlags k.

(** What the callers of kpt rely on: [kpt live init] exits without error
    only when it has written the inventory block into the Kptfile of the
    directory, and [kpt fn source] only reads. *)
Definition live_init_contract {Ext} (P : Platform Ext) : Prop :=
  ∀ k fs ext,
    exit_err (kpt P (liveInitArgs k) fs ext) = None →
    has_inventory (files_after (kpt P (liveInitArgs k) fs ext)) (kptFilePath P k).
Definition source_contract {Ext} (P : Platform Ext) : Prop :=
  ∀ dir fs ext, files_after (kpt P ["fn"; "source"; dir] fs ext) = fs.


(** No field of the stored inventory differs from what is desired, as the
    merge branch compares them. *)
Definition no_field_differs (k : Deployer) (inv : kptfile.Inventory_t) : Prop :=
  (InventoryID k = "" ∨ InventoryID k = kptfile.InventoryID inv) ∧
  (Name k = "" ∨ Name k = kptfile.Name inv) ∧
  or_default (namespace k) = kptfile.Namespace inv ∧
  or_default (InventoryNamespace k) = kptfile.Namespace inv.



(** The bootstrap scenario in the words of the specification: from a
    directory without Kptfile and with only the name [app1] desired, the
    package initializer runs, then the inventory initializer with
    [--name app1], and the resulting inventory has the fallback namespace. *)
Definition bootstrap_scenario_as_specified : Prop :=
  ∀ (Ext : Type) (P : Platform Ext) (s : State Ext) text0 kf0,
    let k := self s in
    let path := kptFilePath P k in
    let o1 := kpt P ["pkg"; "init"; applyDir k] (files s) (outside s) in
    let o2 := kpt P (liveInitArgs k) (files_after o1) (outside_after o1) in
    Name k = "app1" → InventoryID k = "" → namespace k = "" → InventoryNamespace k = "" →
    files s !! path = None →
    exit_err o1 = None → files_after o1 !! path = Some (Doc text0 kf0) →
    kptfile.Inventory kf0 = None →
    exit_err o2 = None →
    let s' := (kptfileInitIfNot P s).2 in
    (∃ pre post, cmds (events (kptfileInitIfNot P) s) =
        [["pkg"; "init"; applyDir k]; pre ++ ["--name"; "app1"] ++ post] ∧
        is_live_init pre = true) ∧
    ∃ text' kf' inv', files s' !! path = Some (Doc text' kf') ∧
                kptfile.Inventory kf' = Some inv' ∧
                kptfile.Namespace inv' = defaultNs.

(** The scripted platform with one failing command: a command line whose
    first two words are [words] exits with an error and changes nothing. *)
Definition failing (words : list string) : Platform string :=
  {| filepath_Join := Scripted.Join;
     kpt := λ args fs ctx,
       if decide (take 2 args = words)
       then mkCmdOutcome "" (Some (extErr "exit status 1")) fs ctx
       else Scripted.run args fs ctx;
     yaml_Marshal_err := λ _, None;
     yaml_Marshal_text := Scripted.render;
     WriteFile_fault := λ _ _ _, None;
     ResourceList_Read := λ _, inr [];
     ManifestList_Append := λ l buf, l ++ [buf];
     CollectNamespaces := λ _, (Some [], None) |}.

(** Inputs on the scripted platform: the directory [app], whose Kptfile
    is [app/Kptfile]. *)
Module Inputs.
Import Scripted.

Definition doc (ns name id : string) : kptfile.KptFile :=
  kptfile.mkKptFile "info: {}" (Some (kptfile.mkInventory ns name id "")).
(** A Kptfile somebody has edited: its bytes are not those the encoder
    would write. *)
Definition hand_text (kf : kptfile.KptFile) : string :=
  "# edited by hand; " +:+ render kf.
Definition by_hand (kf : kptfile.KptFile) : File := Doc (hand_text kf) kf.
Definition stored (ns name id : string) : gmap string File :=
  {[ "app/Kptfile" := by_hand (doc ns name id) ]}.
Definition uninitialized : gmap string File := {[ "app/Kptfile" := written bare ]}.

(** Stored and desired inventory agree in every field. *)
Definition agreeing : State string :=
  start (stored "ns" "app1" "id1") "ctx" (deployer "app" "app1" "id1" "ns" "ns").
(** The namespace [prod] is stored and nothing is desired. *)
Definition nothing_desired : State string :=
  start (stored "prod" "app1" "id1") "ctx" (deployer "app" "" "" "" "").
(** An empty directory, only the name [app1] desired, and a kube context
    whose namespace is [team-a]. *)
Definition empty_dir : State string :=
  start ∅ "team-a" (deployer "app" "app1" "" "" "").

End Inputs.

(** The informational events of [Deploy] for the result [r] of
    [getManifests]: one when reading the manifests failed, one when
    collecting the namespaces failed. *)
Definition render_infos {Ext} (P : Platform Ext) (k : Deployer)
    (r : list string * option Error) : list Event :=
  match r.2 with
  | Some err =>
      [EvDeployInfo
         (Errorf ("could not read the hydrated manifest from " +:+ applyDir k) err)]
  | None => []
  end ++
  match (CollectNamespaces P r.1).2 with
  | Some err =>
      [EvDeployInfo
         (Errorf ("could not fetch deployed resource namespace. " +:+
                  "This might cause port-forward and deploy health-check to fail") err)]
  | None => []
  end.

(** The effects a run of the reconciler can have. *)
Definition reconcile_event (ev : Event) : bool :=
  match ev with
  | EvRunCmd args _ => is_initializer args
  | EvWarn _ | EvWriteFile _ _ => true
  | EvDeployInfo _ | EvTrackBuildArtifacts _ => false
  end.

(** ** The rest of kpt.go *)

Module config.
(** The fields of [config.SkaffoldOptions] that [NewDeployer] reads. *)
Record SkaffoldOptions : Type := mkSkaffoldOptions {
  InventoryNamespace : string;
  InventoryID : string;
  InventoryName : string
}.
End config.

Definition KptV2Deploy_set_InventoryID (d : latestV2.KptV2Deploy) (v : string)
  : latestV2.KptV2Deploy :=
  {| latestV2.Dir := latestV2.Dir d; latestV2.ApplyFlags := latestV2.ApplyFlags d;
     latestV2.Flags := latestV2.Flags d; latestV2.Name := latestV2.Name d;
     latestV2.InventoryID := v;
     latestV2.InventoryNamespace := latestV2.InventoryNamespace d;
     latestV2.Force := latestV2.Force d |}.
Definition KptV2Deploy_set_Name (d : latestV2.KptV2Deploy) (v : string)
  : latestV2.KptV2Deploy :=
  {| latestV2.Dir := latestV2.Dir d; latestV2.ApplyFlags := latestV2.ApplyFlags d;
     latestV2.Flags := latestV2.Flags d; latestV2.Name := v;
     latestV2.InventoryID := latestV2.InventoryID d;
     latestV2.InventoryNamespace := latestV2.InventoryNamespace d;
     latestV2.Force := latestV2.Force d |}.

(** [NewDeployer] generates a new Deployer object; it writes the options
    that are set into the schema [d] it is given through a pointer, and
    the Deployer keeps that pointer.  Of the [Config] only
    [GetKubeNamespace] reaches a field that the functions of this file
    read; the component provider and the labels fill the handles that
    [Deployer] leaves out. *)
Definition NewDeployer (GetKubeNamespace : string) (d : latestV2.KptV2Deploy)
    (opts : config.SkaffoldOptions) : Deployer :=
  let d := if decide (config.InventoryNamespace opts ≠ "")
           then latestV2.set_InventoryNamespace d (config.InventoryNamespace opts)
           else d in
  let d := if decide (config.InventoryID opts ≠ "")
           then KptV2Deploy_set_InventoryID d (config.InventoryID opts) else d in
  let d := if decide (config.InventoryName opts ≠ "")
           then KptV2Deploy_set_Name d (config.InventoryName opts) else d in
  {| KptV2Deploy := d; applyDir := latestV2.Dir d; namespace := GetKubeNamespace |}.

(** [Render] shall not be called; [Dependencies] is a no-op for v2
    deployers. *)
Definition Render : option Error := Some (extErr "shall not be called").
Definition Dependencies : list string * option Error := ([], None).

(** The command lines of [kpt fn source] in [getManifests] and of
    [kpt live destroy] in [Cleanup]. *)
Definition fnSourceArgs (k : Deployer) : list string := ["fn"; "source"; applyDir k].
Definition liveDestroyArgs (k : Deployer) : list string :=
  ["live"; "destroy"; applyDir k] ++ Flags k.
Definition is_live_destroy (args : list string) : bool :=
  bool_decide (take 2 args = ["live"; "destroy"]).

(** An argument pair for a value that is set, nothing for an empty one. *)
Definition flag_if_set (flag value : string) : list string :=
  if decide (value ≠ "") then [flag; value] else [].

(** The first value when it is set, else the second. *)
Definition or_else (a b : string) : string := if decide (a ≠ "") then a else b.

(** More scripted platforms.  On [inert] every command succeeds and
    changes nothing; [faulty_io] is the scripted platform with the given
    results of [yaml.Marshal] and [ioutil.WriteFile] (a failed write
    leaves the files as they are); on [rendering] the command
    [kpt fn source] prints [out], the resource list reads as [items] and
    the namespaces collected from a manifest list are its manifests. *)
Definition inert : Platform string :=
  {| filepath_Join := Scripted.Join;
     kpt := λ _ fs ctx, mkCmdOutcome "" None fs ctx;
     yaml_Marshal_err := λ _, None;
     yaml_Marshal_text := Scripted.render;
     WriteFile_fault := λ _ _ _, None;
     ResourceList_Read := λ _, inr [];
     ManifestList_Append := λ l buf, l ++ [buf];
     CollectNamespaces := λ _, (Some [], None) |}.

Definition faulty_io (marshal write : option Error) : Platform string :=
  {| filepath_Join := Scripted.Join;
     kpt := Scripted.run;
     yaml_Marshal_err := λ _, marshal;
     yaml_Marshal_text := Scripted.render;
     WriteFile_fault := λ _ fs _, (λ e, (e, fs)) <$> write;
     ResourceList_Read := λ _, inr [];
     ManifestList_Append := λ l buf, l ++ [buf];
     CollectNamespaces := λ _, (Some [], None) |}.

Definition rendering (out : string) (items : Error + list (Error + string))
  : Platform string :=
  {| filepath_Join := Scripted.Join;
     kpt := λ args fs ctx,
       if decide (take 2 args = ["fn"; "source"])
       then mkCmdOutcome out None fs ctx
       else Scripted.run args fs ctx;
     yaml_Marshal_err := λ _, None;
     yaml_Marshal_text := Scripted.render;
     WriteFile_fault := λ _ _ _, None;
     ResourceList_Read := λ _, items;
     ManifestList_Append := λ l buf, l ++ [buf];
     CollectNamespaces := λ ms, (Some ms, None) |}.

(** ** What one run of the reconciler does, case by case *)

Ltac run_monad :=
  unfold mbind, M_bind, mret, M_ret, get_k, put_k, os_Stat_IsNotExist, openFile,
    Warnf, DeployInfoEvent, TrackBuildArtifacts, emit, RunCmd, RunCmdOut, WriteFile;
  cbn [fst snd files outside self log].

Ltac unfold_fields :=
  unfold Name, InventoryID, InventoryNamespace, Force, Flags, ApplyFlags,
    set_namespace, set_InventoryNamespace, latestV2.set_InventoryNamespace,
    kptfile.set_InventoryID, kptfile.set_Name, kptfile.set_Namespace.

Section Reconcile.
Context {Ext : Type} (P : Platform Ext).

(** The Kptfile exists and has an inventory block: the merge branch. *)
Lemma kptfileInitIfNot_merge (s : State Ext) {text} kf inv :
  files s !! kptFilePath P (self s) = Some (Doc text kf) →
  kptfile.Inventory kf = Some inv →
  let k := self s in
  let path := kptFilePath P k in
  let kf' := kptfile.set_Inventory kf (merged k inv) in
  let evs := EvWarn <$> merge_warnings k inv in
  kptfileInitIfNot P s =
    match yaml_Marshal_err P kf' with
    | Some err => (Some err, mkState (files s) (outside s) (defaulted k) (log s ++ evs))
    | None =>
      match WriteFile_fault P path (files s) (outside s) with
      | Some (err, fs') =>
          (Some err, mkState fs' (outside s) (defaulted k)
                             (log s ++ evs ++ [EvWriteFile path kf']))
      | None =>
          (None, mkState (<[path := Doc (yaml_Marshal_text P kf') kf']> (files s))
                         (outside s) (defaulted k)
                         (log s ++ evs ++ [EvWriteFile path kf']))
      end
    end.
Proof.
  intros Hf Hi k path kf' evs. subst k path kf' evs.
  unfold kptfileInitIfNot. run_monad.
  rewrite Hf, bool_decide_eq_false_2 by congruence.
  run_monad. rewrite Hf, Hi.
  unfold merged, merge_warnings, defaulted, or_default, id_differs, name_differs.
  destruct s as [fs ext k l]. unfold_fields. cbn.
  repeat (destruct (decide _); cbn).
  all: rewrite <- ?app_assoc, ?app_nil_r; cbn.
  all: destruct (yaml_Marshal_err P _); [reflexivity|].
  all: destruct (WriteFile_fault P _ _ _) as [[??]|]; cbn;
    rewrite <- ?app_assoc; reflexivity.
Qed.

(** The Kptfile exists without an inventory block: the bootstrap branch. *)
Lemma kptfileInitIfNot_bootstrap (s : State Ext) {text} kf :
  files s !! kptFilePath P (self s) = Some (Doc text kf) →
  kptfile.Inventory kf = None →
  let k := self s in
  let o := kpt P (liveInitArgs k) (files s) (outside s) in
  kptfileInitIfNot P s =
    (match exit_err o with
     | Some err => Some (liveInitErr err (applyDir k))
     | None => None
     end,
     mkState (files_after o) (outside_after o) k
             (log s ++ [EvRunCmd (liveInitArgs k) (files s)])).
Proof.
  intros Hf Hi k o. subst k o.
  unfold kptfileInitIfNot. run_monad.
  rewrite Hf, bool_decide_eq_false_2 by congruence.
  run_monad. rewrite Hf, Hi. run_monad.
  destruct (exit_err _); reflexivity.
Qed.

(** The Kptfile exists but cannot be opened or decoded. *)
Lemma kptfileInitIfNot_unreadable (s : State Ext) err :
  files s !! kptFilePath P (self s) = Some (Unreadable err) →
  kptfileInitIfNot P s = (Some (openFileErr err (kptFilePath P (self s))), s).
Proof.
  intros Hf. unfold kptfileInitIfNot. run_monad.
  rewrite Hf, bool_decide_eq_false_2 by congruence.
  run_monad. rewrite Hf. reflexivity.
Qed.

Lemma kptfileInitIfNot_garbage (s : State Ext) err :
  files s !! kptFilePath P (self s) = Some (Garbage err) →
  kptfileInitIfNot P s = (Some (parseFileErr err (kptFilePath P (self s))), s).
Proof.
  intros Hf. unfold kptfileInitIfNot. run_monad.
  rewrite Hf, bool_decide_eq_false_2 by congruence.
  run_monad. rewrite Hf. reflexivity.
Qed.

(** The Kptfile holds the null document: the nil pointer is dereferenced. *)
Lemma kptfileInitIfNot_null (s : State Ext) :
  files s !! kptFilePath P (self s) = Some Null →
  kptfileInitIfNot P s = (Some (runtimePanic nil_dereference), s).
Proof.
  intros Hf. unfold kptfileInitIfNot. run_monad.
  rewrite Hf, bool_decide_eq_false_2 by congruence.
  run_monad. rewrite Hf. reflexivity.
Qed.

(** No Kptfile: [kpt pkg init] runs first; when it fails the reconciler
    stops, when it leaves no file the open fails, and otherwise the run
    goes on exactly as a run that finds the file [kpt pkg init] left. *)
Lemma kptfileInitIfNot_absent (s : State Ext) :
  files s !! kptFilePath P (self s) = None →
  let k := self s in
  let o := kpt P ["pkg"; "init"; applyDir k] (files s) (outside s) in
  kptfileInitIfNot P s =
    match exit_err o with
    | Some err => (Some (pkgInitErr err (applyDir k)), after_pkg_init P s)
    | None =>
      match files_after o !! kptFilePath P k with
      | None => (Some (openFileErr ENOENT (kptFilePath P k)), after_pkg_init P s)
      | Some _ => kptfileInitIfNot P (after_pkg_init P s)
      end
    end.
Proof.
  intros Hf k o. subst k o.
  unfold kptfileInitIfNot, after_pkg_init. run_monad.
  rewrite Hf, bool_decide_eq_true_2 by reflexivity.
  run_monad.
  destruct (exit_err _); [reflexivity|].
  cbn [files outside self log].
  destruct (files_after _ !! _) as [f|] eqn:Hf'; [|reflexivity].
  rewrite bool_decide_eq_false_2 by congruence.
  run_monad. rewrite Hf'. reflexivity.
Qed.

End Reconcile.

(** ** Facts about the log and the merge functions *)

Section Facts.
Context {Ext : Type} (P : Platform Ext).

Lemma events_app {A} (m : M Ext A) (s : State Ext) evs :
  log (m s).2 = log s ++ evs → events m s = evs.
Proof. intros H. unfold events. rewrite H. apply drop_app_length. Qed.

Lemma cmds_app a b : cmds (a ++ b) = cmds a ++ cmds b.
Proof. apply omap_app. Qed.
Lemma writes_app a b : writes (a ++ b) = writes a ++ writes b.
Proof. apply omap_app. Qed.
Lemma warnings_app a b : warnings (a ++ b) = warnings a ++ warnings b.
Proof. apply omap_app. Qed.
Lemma tracked_app a b : tracked (a ++ b) = tracked a ++ tracked b.
Proof. apply omap_app. Qed.

Lemma cmds_warn l : cmds (EvWarn <$> l) = [].
Proof. induction l; [done|]. cbn. exact IHl. Qed.
Lemma writes_warn l : writes (EvWarn <$> l) = [].
Proof. induction l; [done|]. cbn. exact IHl. Qed.
Lemma warnings_warn l : warnings (EvWarn <$> l) = l.
Proof. induction l; [done|]. cbn. by f_equal. Qed.

Lemma merged_InventoryID k inv :
  kptfile.InventoryID (merged k inv) =
    if decide (InventoryID k ≠ "" ∧ InventoryID k ≠ kptfile.InventoryID inv)
    then InventoryID k else kptfile.InventoryID inv.
Proof.
  unfold merged, id_differs, name_differs. unfold_fields.
  destruct (decide (latestV2.InventoryID _ ≠ "" ∧ _)); cbn;
    destruct (decide (latestV2.Name _ ≠ "" ∧ _)); cbn;
    repeat (destruct (decide _); cbn); done.
Qed.

Lemma merged_Name k inv :
  kptfile.Name (merged k inv) =
    if decide (Name k ≠ "" ∧ Name k ≠ kptfile.Name inv)
    then Name k else kptfile.Name inv.
Proof.
  unfold merged, id_differs, name_differs. unfold_fields.
  destruct (decide (latestV2.InventoryID _ ≠ "" ∧ _)); cbn;
    destruct (decide (latestV2.Name _ ≠ "" ∧ _)); cbn;
    repeat (destruct (decide _); cbn); done.
Qed.

Lemma merged_Namespace k inv :
  kptfile.Namespace (merged k inv) =
    if decide (or_default (namespace k) ≠ kptfile.Namespace inv)
    then or_default (namespace k)
    else if decide (or_default (InventoryNamespace k) ≠ kptfile.Namespace inv)
         then or_default (InventoryNamespace k)
         else kptfile.Namespace inv.
Proof.
  unfold merged, id_differs, name_differs. unfold_fields.
  destruct (decide (latestV2.InventoryID _ ≠ "" ∧ _)); cbn;
    destruct (decide (latestV2.Name _ ≠ "" ∧ _)); cbn;
    repeat (destruct (decide _); cbn); done.
Qed.


Lemma merged_same k inv : no_field_differs k inv → merged k inv = inv.
Proof.
  intros (Hid & Hnm & Hns & Hgns).
  unfold merged, id_differs, name_differs.
  rewrite (decide_False (P := InventoryID k ≠ "" ∧ _)) by tauto.
  rewrite (decide_False (P := Name k ≠ "" ∧ _)) by tauto.
  rewrite (decide_False (P := or_default (namespace k) ≠ _)) by tauto.
  rewrite (decide_False (P := or_default (InventoryNamespace k) ≠ _)) by tauto.
  reflexivity.
Qed.

Lemma merge_warnings_same k inv : no_field_differs k inv → merge_warnings k inv = [].
Proof.
  intros (Hid & Hnm & Hns & Hgns).
  unfold merge_warnings, id_differs, name_differs.
  rewrite (decide_False (P := InventoryID k ≠ "" ∧ _)) by tauto.
  rewrite (decide_False (P := Name k ≠ "" ∧ _)) by tauto.
  rewrite (decide_False (P := or_default (namespace k) ≠ _)) by tauto.
  rewrite (decide_False (P := or_default (InventoryNamespace k) ≠ _)) by tauto.
  reflexivity.
Qed.

(** The log of a merge-branch run whose marshalling succeeds. *)
Lemma merge_events (s : State Ext) {text} kf inv :
  files s !! kptFilePath P (self s) = Some (Doc text kf) →
  kptfile.Inventory kf = Some inv →
  yaml_Marshal_err P (kptfile.set_Inventory kf (merged (self s) inv)) = None →
  events (kptfileInitIfNot P) s =
    (EvWarn <$> merge_warnings (self s) inv)
    ++ [EvWriteFile (kptFilePath P (self s))
                    (kptfile.set_Inventory kf (merged (self s) inv))]
  ∧ self (kptfileInitIfNot P s).2 = defaulted (self s).
Proof.
  intros Hf Hi Hm.
  pose proof (kptfileInitIfNot_merge P s kf inv Hf Hi) as H. cbv zeta in H.
  rewrite Hm in H.
  destruct (WriteFile_fault P _ _ _) as [[??]|]; split;
    try (apply events_app); rewrite H; reflexivity.
Qed.


End Facts.

Section MergeBranch.
Context {Ext : Type} (P : Platform Ext).

Lemma set_Inventory_same kf inv :
  kptfile.Inventory kf = Some inv → kptfile.set_Inventory kf inv = kf.
Proof. destruct kf as [r i]. cbn. intros ->. reflexivity. Qed.

Lemma is_live_init_liveInitArgs k : is_live_init (liveInitArgs k) = true.
Proof.
  unfold liveInitArgs. cbn [app].
  repeat (destruct (decide _)); destruct (Force k); reflexivity.
Qed.

Lemma or_default_nonempty ns : or_default ns ≠ "".
Proof. unfold or_default. destruct (decide _); [discriminate | assumption]. Qed.

Lemma or_default_id ns : ns ≠ "" → or_default ns = ns.
Proof. intros H. unfold or_default. by rewrite decide_False. Qed.

Lemma namespace_defaulted k : namespace (defaulted k) = or_default (namespace k).
Proof.
  unfold defaulted, or_default. unfold_fields.
  repeat (destruct (decide _); cbn); done.
Qed.

Lemma InventoryNamespace_defaulted k :
  InventoryNamespace (defaulted k) = or_default (InventoryNamespace k).
Proof.
  unfold defaulted, or_default. unfold_fields.
  repeat (destruct (decide _); cbn); done.
Qed.

Lemma defaulted_fixed k :
  namespace k ≠ "" → InventoryNamespace k ≠ "" → defaulted k = k.
Proof.
  intros H1 H2. unfold defaulted.
  rewrite (decide_False (P := namespace k = "")) by assumption.
  by rewrite decide_False.
Qed.

(** Whatever branch a run takes, the Deployer it leaves is the one it
    found or that one with its two namespaces defaulted. *)
Lemma reconcile_self_present (t : State Ext) f :
  files t !! kptFilePath P (self t) = Some f →
  self (kptfileInitIfNot P t).2 = self t ∨
  self (kptfileInitIfNot P t).2 = defaulted (self t).
Proof.
  intros Hf. destruct f as [err|err| |text kf].
  - rewrite (kptfileInitIfNot_unreadable P t err Hf). by left.
  - rewrite (kptfileInitIfNot_garbage P t err Hf). by left.
  - rewrite (kptfileInitIfNot_null P t Hf). by left.
  - destruct (kptfile.Inventory kf) as [inv|] eqn:Hi.
    + right. pose proof (kptfileInitIfNot_merge P t kf inv Hf Hi) as H.
      cbv zeta in H. rewrite H.
      destruct (yaml_Marshal_err P _); [reflexivity|].
      destruct (WriteFile_fault P _ _ _) as [[??]|]; reflexivity.
    + left. pose proof (kptfileInitIfNot_bootstrap P t kf Hf Hi) as H.
      cbv zeta in H. rewrite H. reflexivity.
Qed.

Lemma reconcile_self (t : State Ext) :
  self (kptfileInitIfNot P t).2 = self t ∨
  self (kptfileInitIfNot P t).2 = defaulted (self t).
Proof.
  destruct (files t !! kptFilePath P (self t)) as [f|] eqn:Hf.
  - exact (reconcile_self_present t f Hf).
  - pose proof (kptfileInitIfNot_absent P t Hf) as H. cbv zeta in H. rewrite H.
    destruct (exit_err _); [by left|].
    destruct (files_after _ !! _) as [f|] eqn:Hf'; [|by left].
    exact (reconcile_self_present (after_pkg_init P t) f Hf').
Qed.

End MergeBranch.

Section DeployFacts.
Context {Ext : Type} (P : Platform Ext).

Lemma getManifests_state (s : State Ext) :
  let args := ["fn"; "source"; applyDir (self s)] in
  let o := kpt P args (files s) (outside s) in
  (getManifests P s).2 =
    mkState (files_after o) (outside_after o) (self s) (log s ++ [EvRunCmd args (files s)]).
Proof.
  cbv zeta. unfold getManifests. run_monad.
  destruct (exit_err _); [reflexivity|].
  destruct (ResourceList_Read P _); [reflexivity|].
  destruct (items_String _ _); reflexivity.
Qed.

(** A failed read of the manifests gives the empty manifest list. *)
Lemma getManifests_failed (s : State Ext) err :
  (getManifests P s).1.2 = Some err → (getManifests P s).1.1 = [].
Proof.
  unfold getManifests. run_monad.
  destruct (exit_err _); [reflexivity|].
  destruct (ResourceList_Read P _); [reflexivity|].
  destruct (items_String _ _); [reflexivity|discriminate].
Qed.

Lemma Deploy_failed_reconcile builds (s s1 : State Ext) e :
  kptfileInitIfNot P s = (Some e, s1) →
  Deploy P builds s = ((None, Some e), s1).
Proof.
  intros H. unfold Deploy, kptInitFunc. unfold mbind at 1, M_bind at 1.
  rewrite H. reflexivity.
Qed.

Lemma Deploy_reconciled builds (s s1 : State Ext) :
  kptfileInitIfNot P s = (None, s1) →
  let k := self s1 in
  let r := (getManifests P s1).1 in
  let s2 := (getManifests P s1).2 in
  let o := kpt P (liveApplyArgs k) (files s2) (outside s2) in
  Deploy P builds s =
    match exit_err o with
    | Some e =>
        ((None, Some (liveApplyErr e (applyDir k))),
         mkState (files_after o) (outside_after o) k
                 (log s2 ++ render_infos P k r ++ [EvRunCmd (liveApplyArgs k) (files s2)]))
    | None =>
        (((CollectNamespaces P r.1).1, None),
         mkState (files_after o) (outside_after o) k
                 (log s2 ++ render_infos P k r ++
                    [EvRunCmd (liveApplyArgs k) (files s2);
                     EvTrackBuildArtifacts builds]))
    end.
Proof.
  intros H k r s2 o. subst k r s2 o.
  pose proof (getManifests_state s1) as Hs2. cbv zeta in Hs2.
  unfold Deploy, kptInitFunc. unfold mbind at 1, M_bind at 1.
  rewrite H. unfold mbind at 1, M_bind at 1. unfold get_k at 1. cbv beta iota.
  unfold mbind at 1, M_bind at 1.
  destruct (getManifests P s1) as [r s2] eqn:Hg. cbn [fst snd] in *. subst s2.
  unfold render_infos, liveApplyArgs.
  destruct r as [ms [err|]]; cbn [fst snd];
    destruct (CollectNamespaces P ms) as [nss [cerr|]]; cbn [fst snd];
    do 2 run_monad; cbn; destruct (exit_err _); cbn; rewrite <- ?app_assoc; reflexivity.
Qed.

End DeployFacts.

Section ReconcileLog.
Context {Ext : Type} (P : Platform Ext).

Lemma applyDir_defaulted k : applyDir (defaulted k) = applyDir k.
Proof.
  unfold defaulted. unfold_fields.
  repeat (destruct (decide _); cbn); reflexivity.
Qed.

Lemma liveApplyArgs_defaulted k : liveApplyArgs (defaulted k) = liveApplyArgs k.
Proof.
  unfold liveApplyArgs, defaulted. unfold_fields.
  repeat (destruct (decide _); cbn); reflexivity.
Qed.

Lemma kptFilePath_defaulted k : kptFilePath P (defaulted k) = kptFilePath P k.
Proof. unfold kptFilePath. by rewrite applyDir_defaulted. Qed.

Lemma reconcile_applyDir (s : State Ext) :
  applyDir (self (kptfileInitIfNot P s).2) = applyDir (self s).
Proof.
  destruct (reconcile_self P s) as [-> | ->];
    [reflexivity | apply applyDir_defaulted].
Qed.

Lemma reconcile_liveApplyArgs (s : State Ext) :
  liveApplyArgs (self (kptfileInitIfNot P s).2) = liveApplyArgs (self s).
Proof.
  destruct (reconcile_self P s) as [-> | ->];
    [reflexivity | apply liveApplyArgs_defaulted].
Qed.

Lemma Forall_reconcile_warn (ws : list string) :
  Forall (λ ev, reconcile_event ev = true) (EvWarn <$> ws).
Proof. apply Forall_fmap, Forall_forall. intros; reflexivity. Qed.

Lemma reconcile_log_present (s : State Ext) f :
  files s !! kptFilePath P (self s) = Some f →
  ∃ evs, log (kptfileInitIfNot P s).2 = log s ++ evs ∧
         Forall (λ ev, reconcile_event ev = true) evs.
Proof.
  intros Hf. destruct f as [err|err| |text kf].
  - rewrite (kptfileInitIfNot_unreadable P s err Hf).
    exists []. by rewrite app_nil_r.
  - rewrite (kptfileInitIfNot_garbage P s err Hf).
    exists []. by rewrite app_nil_r.
  - rewrite (kptfileInitIfNot_null P s Hf).
    exists []. by rewrite app_nil_r.
  - destruct (kptfile.Inventory kf) as [inv|] eqn:Hi.
    + pose proof (kptfileInitIfNot_merge P s kf inv Hf Hi) as H.
      cbv zeta in H. rewrite H.
      destruct (yaml_Marshal_err P _);
        [|destruct (WriteFile_fault P _ _ _) as [[??]|]];
        eexists; (split; [reflexivity|]);
        try apply Forall_app_2; try apply Forall_reconcile_warn;
        repeat constructor.
    + pose proof (kptfileInitIfNot_bootstrap P s kf Hf Hi) as H.
      cbv zeta in H. rewrite H.
      eexists; split; [reflexivity|]. repeat constructor.
      cbn. unfold is_initializer. rewrite is_live_init_liveInitArgs.
      apply orb_true_r.
Qed.

Lemma reconcile_log (s : State Ext) :
  ∃ evs, log (kptfileInitIfNot P s).2 = log s ++ evs ∧
         Forall (λ ev, reconcile_event ev = true) evs.
Proof.
  destruct (files s !! kptFilePath P (self s)) as [f|] eqn:Hf.
  - exact (reconcile_log_present s f Hf).
  - pose proof (kptfileInitIfNot_absent P s Hf) as H. cbv zeta in H. rewrite H.
    destruct (exit_err _).
    { eexists; split; [reflexivity|]. repeat constructor. }
    destruct (files_after _ !! _) as [f|] eqn:Hf'.
    2: { eexists; split; [reflexivity|]. repeat constructor. }
    destruct (reconcile_log_present (after_pkg_init P s) f Hf') as (evs & Hl & Hall).
    rewrite Hl. unfold after_pkg_init. cbn [log].
    rewrite <- app_assoc. eexists; split; [reflexivity|].
    apply Forall_app_2; [repeat constructor | exact Hall].
Qed.

Lemma initializer_not_apply args : is_initializer args = true → is_live_apply args = false.
Proof.
  unfold is_initializer, is_pkg_init, is_live_init, is_live_apply.
  intros H. apply bool_decide_eq_false_2. intros Ha. rewrite Ha in H.
  discriminate H.
Qed.

Lemma reconcile_events_only (evs : list Event) :
  Forall (λ ev, reconcile_event ev = true) evs →
  tracked evs = [] ∧ infos evs = [] ∧
  ∀ args fs, EvRunCmd args fs ∈ evs → is_live_apply args = false.
Proof.
  induction 1 as [|ev evs Hev _ (IHt & IHi & IHc)].
  - repeat split. intros args fs Hin. by apply elem_of_nil in Hin.
  - destruct ev as [a f|m|p kf|e|b]; try discriminate Hev; cbn.
    all: repeat split; try assumption.
    all: intros args fs Hin; apply elem_of_cons in Hin as [Heq|Hin];
      try discriminate Heq; try (by apply (IHc args fs)).
    injection Heq as -> ->. by apply initializer_not_apply.
Qed.

End ReconcileLog.

Section Inventory.
Context {Ext : Type} (P : Platform Ext).

Lemma reconciled_has_inventory_present (s s1 : State Ext) f :
  live_init_contract P →
  files s !! kptFilePath P (self s) = Some f →
  kptfileInitIfNot P s = (None, s1) →
  has_inventory (files s1) (kptFilePath P (self s)).
Proof.
  intros Hc Hf Hr. destruct f as [err|err| |text kf].
  - rewrite (kptfileInitIfNot_unreadable P s err Hf) in Hr. discriminate Hr.
  - rewrite (kptfileInitIfNot_garbage P s err Hf) in Hr. discriminate Hr.
  - rewrite (kptfileInitIfNot_null P s Hf) in Hr. discriminate Hr.
  - destruct (kptfile.Inventory kf) as [inv|] eqn:Hi.
    + pose proof (kptfileInitIfNot_merge P s kf inv Hf Hi) as H.
      cbv zeta in H. rewrite H in Hr.
      destruct (yaml_Marshal_err P _); [discriminate Hr|].
      destruct (WriteFile_fault P _ _ _) as [[??]|]; [discriminate Hr|].
      injection Hr as <-. cbn [files].
      eexists _, _, _. split; [apply lookup_insert_eq | reflexivity].
    + pose proof (kptfileInitIfNot_bootstrap P s kf Hf Hi) as H.
      cbv zeta in H. rewrite H in Hr.
      destruct (exit_err _) eqn:He; [discriminate Hr|].
      injection Hr as <-. cbn [files]. apply Hc. exact He.
Qed.

(** After a run of the reconciler that returns no error, the Kptfile
    holds an inventory block. *)
Lemma reconciled_has_inventory (s s1 : State Ext) :
  live_init_contract P →
  kptfileInitIfNot P s = (None, s1) →
  has_inventory (files s1) (kptFilePath P (self s)).
Proof.
  intros Hc Hr.
  destruct (files s !! kptFilePath P (self s)) as [f|] eqn:Hf.
  - exact (reconciled_has_inventory_present s s1 f Hc Hf Hr).
  - pose proof (kptfileInitIfNot_absent P s Hf) as H. cbv zeta in H.
    rewrite H in Hr.
    destruct (exit_err _); [discriminate Hr|].
    destruct (files_after _ !! _) as [f|] eqn:Hf'; [|discriminate Hr].
    exact (reconciled_has_inventory_present (after_pkg_init P s) s1 f Hc Hf' Hr).
Qed.

End Inventory.

Section DeployLog.
Context {Ext : Type} (P : Platform Ext).

(** The effects of a [Deploy] whose reconciler returns no error, in
    order: those of the reconciler, [kpt fn source], the informational
    events, [kpt live apply] and, when that succeeds, the tracking. *)
Lemma Deploy_events builds (s s1 : State Ext) :
  kptfileInitIfNot P s = (None, s1) →
  let k := self s1 in
  let r := (getManifests P s1).1 in
  let s2 := (getManifests P s1).2 in
  let o := kpt P (liveApplyArgs k) (files s2) (outside s2) in
  events (Deploy P builds) s =
    events (kptfileInitIfNot P) s
    ++ [EvRunCmd ["fn"; "source"; applyDir k] (files s1)]
    ++ render_infos P k r
    ++ [EvRunCmd (liveApplyArgs k) (files s2)]
    ++ match exit_err o with
       | Some _ => []
       | None => [EvTrackBuildArtifacts builds]
       end.
Proof.
  intros Hr k r s2 o.
  destruct (reconcile_log P s) as (evs & Hl & _). rewrite Hr in Hl. cbn [snd] in Hl.
  assert (events (kptfileInitIfNot P) s = evs) as ->
    by (apply events_app; rewrite Hr; exact Hl).
  pose proof (Deploy_reconciled P builds s s1 Hr) as HD. cbv zeta in HD.
  pose proof (getManifests_state P s1) as Hs2. cbv zeta in Hs2.
  fold k r s2 o in HD. fold s2 in Hs2.
  apply events_app. rewrite HD.
  destruct (exit_err o); cbn [snd log]; rewrite Hs2; cbn [log];
    rewrite Hl, <- !app_assoc; reflexivity.
Qed.

Lemma Deploy_events_failed builds (s s1 : State Ext) e :
  kptfileInitIfNot P s = (Some e, s1) →
  events (Deploy P builds) s = events (kptfileInitIfNot P) s.
Proof.
  intros Hr. unfold events.
  rewrite (Deploy_failed_reconcile P builds s s1 e Hr), Hr. reflexivity.
Qed.

Lemma reconcile_events_log (s : State Ext) :
  Forall (λ ev, reconcile_event ev = true) (events (kptfileInitIfNot P) s).
Proof.
  destruct (reconcile_log P s) as (evs & Hl & Hall).
  by rewrite (events_app _ _ _ Hl).
Qed.

Lemma render_infos_only k r ev :
  ev ∈ render_infos P k r → ∃ err, ev = EvDeployInfo err.
Proof.
  unfold render_infos. intros Hin.
  destruct (r.2), ((CollectNamespaces P r.1).2); cbn in Hin;
    repeat (apply elem_of_cons in Hin as [->|Hin]; [by eexists|]);
    by apply elem_of_nil in Hin.
Qed.

End DeployLog.

Section DeployClaims.
Context {Ext : Type} (P : Platform Ext).

Lemma tracked_render_infos k r : tracked (render_infos P k r) = [].
Proof.
  unfold render_infos. destruct (r.2), ((CollectNamespaces P r.1).2); reflexivity.
Qed.

Lemma render_infos_nonempty k r :
  is_Some r.2 ∨ is_Some (CollectNamespaces P r.1).2 → render_infos P k r ≠ [].
Proof.
  unfold render_infos. intros [[e He]|[e He]]; rewrite He.
  - discriminate.
  - destruct (r.2); discriminate.
Qed.

End DeployClaims.

(** ** The claims *)







(** C3, as the specification words it, fails in its last part: on
    [Inputs.empty_dir] the reconciler runs [kpt pkg init] and then
    [kpt live init app --name app1], without any namespace, so the
    namespace of the new inventory is the initializer's choice, here the
    namespace [team-a] of the kube context and not [default]. *)
Lemma bootstrap_scenario_as_specified_fails :
  cmds (events (kptfileInitIfNot Scripted.platform) Inputs.empty_dir)
    = [["pkg"; "init"; "app"]; ["live"; "init"; "app"; "--name"; "app1"]] ∧
  files (kptfileInitIfNot Scripted.platform Inputs.empty_dir).2 !! "app/Kptfile"
    = Some (Scripted.written
              (kptfile.mkKptFile "info: {}"
                 (Some (kptfile.mkInventory "team-a" "app1" "generated-id" "")))) ∧
  self (kptfileInitIfNot Scripted.platform Inputs.empty_dir).2 = self Inputs.empty_dir ∧
  ¬ bootstrap_scenario_as_specified.
Proof.
  do 3 (split; [vm_compute; reflexivity|]).
  intros H.
  destruct (H string Scripted.platform Inputs.empty_dir
              (Scripted.render Scripted.bare) Scripted.bare)
    as (_ & text' & kf' & inv' & Hf & Hi & Hns).
  all: try (vm_compute; reflexivity).
  vm_compute in Hf. injection Hf as _ <-.
  injection Hi as <-. discriminate Hns.
Qed.

(** C3, amended: from a directory without Kptfile and with only the name
    [app1] desired, the reconciler runs [kpt pkg init] and then, on the
    Kptfile without inventory that this leaves, [kpt live init] with the
    directory, the configured flags, [--name app1] and, when forced,
    [--force true]; it passes no namespace it has chosen, writes nothing
    itself and leaves the namespaces of the Deployer empty, so the
    namespace of the new inventory is the one [kpt live init] picks. *)
Theorem bootstrap_scenario {Ext} (P : Platform Ext) (s : State Ext) {text0} kf0 :
  let k := self s in
  let path := kptFilePath P k in
  let o1 := kpt P ["pkg"; "init"; applyDir k] (files s) (outside s) in
  let o2 := kpt P (liveInitArgs k) (files_after o1) (outside_after o1) in
  Name k = "app1" → InventoryID k = "" → namespace k = "" → InventoryNamespace k = "" →
  files s !! path = None →
  exit_err o1 = None → files_after o1 !! path = Some (Doc text0 kf0) →
  kptfile.Inventory kf0 = None →
  events (kptfileInitIfNot P) s =
    [EvRunCmd ["pkg"; "init"; applyDir k] (files s);
     EvRunCmd (liveInitArgs k) (files_after o1)] ∧
  liveInitArgs k =
    ["live"; "init"; applyDir k] ++ Flags k ++ ["--name"; "app1"]
    ++ (if Force k then ["--force"; "true"] else []) ∧
  (kptfileInitIfNot P s).1 =
    match exit_err o2 with
    | Some err => Some (liveInitErr err (applyDir k))
    | None => None
    end ∧
  files (kptfileInitIfNot P s).2 = files_after o2 ∧
  self (kptfileInitIfNot P s).2 = k.
Proof.
  intros k path o1 o2 Hname Hid Hns Hgns Hf Ho1 Hf1 Hi.
  pose proof (kptfileInitIfNot_absent P s Hf) as H. cbv zeta in H.
  fold k o1 in H. rewrite Ho1 in H. fold path in H. rewrite Hf1 in H.
  pose proof (kptfileInitIfNot_bootstrap P (after_pkg_init P s) kf0 Hf1 Hi) as H2.
  cbv zeta in H2. rewrite H2 in H. clear H2.
  unfold after_pkg_init in H. cbn [files outside self log] in H. fold k o1 o2 in H.
  split; [apply events_app; rewrite H; cbn [snd log]; by rewrite <- app_assoc|].
  split.
  { unfold liveInitArgs. rewrite Hname, Hid, Hns, Hgns.
    rewrite (decide_True (P := "app1" ≠ "")) by discriminate.
    rewrite !(decide_False (P := "" ≠ "")) by (intros Hne; by apply Hne).
    cbn [app]. destruct (Force k); rewrite <- ?app_assoc; reflexivity. }
  rewrite H. repeat split.
Qed.

Lemma bootstrap_scenario_witness :
  let P := Scripted.platform in
  let s := Scripted.start ∅ "team-a" (Scripted.deployer "app" "app1" "" "" "") in
  let k := self s in
  let o1 := kpt P ["pkg"; "init"; applyDir k] (files s) (outside s) in
  let o2 := kpt P (liveInitArgs k) (files_after o1) (outside_after o1) in
  events (kptfileInitIfNot P) s =
    [EvRunCmd ["pkg"; "init"; applyDir k] (files s);
     EvRunCmd (liveInitArgs k) (files_after o1)] ∧
  liveInitArgs k =
    ["live"; "init"; applyDir k] ++ Flags k ++ ["--name"; "app1"]
    ++ (if Force k then ["--force"; "true"] else []) ∧
  (kptfileInitIfNot P s).1 =
    match exit_err o2 with
    | Some err => Some (liveInitErr err (applyDir k))
    | None => None
    end ∧
  files (kptfileInitIfNot P s).2 = files_after o2 ∧
  self (kptfileInitIfNot P s).2 = k.
Proof.
  intros P s k o1 o2.
  apply (bootstrap_scenario P s (text0 := Scripted.render Scripted.bare) Scripted.bare); vm_compute; reflexivity.
Defined.

(** C4: under the contracts of [kpt live init] and [kpt fn source],
    whenever [Deploy] starts [kpt live apply], the reconciler has returned
    no error and the Kptfile the command is started on holds an inventory
    block. *)
Theorem apply_requires_inventory {Ext} (P : Platform Ext) builds (s : State Ext) :
  live_init_contract P →
  source_contract P →
  ∀ args fs,
    EvRunCmd args fs ∈ events (Deploy P builds) s →
    is_live_apply args = true →
    (kptfileInitIfNot P s).1 = None ∧
    has_inventory fs (kptFilePath P (self s)).
Proof.
  intros Hc Hsrc args fs Hin Happly.
  destruct (reconcile_events_only _ (reconcile_events_log P s)) as (_ & _ & Hno).
  destruct (kptfileInitIfNot P s) as [[e|] s1] eqn:Hr.
  - exfalso. rewrite (Deploy_events_failed P builds s s1 e Hr) in Hin.
    rewrite (Hno args fs Hin) in Happly. discriminate Happly.
  - split; [reflexivity|].
    rewrite (Deploy_events P builds s s1 Hr) in Hin.
    pose proof (getManifests_state P s1) as Hs2. cbv zeta in Hs2.
    pose proof (reconciled_has_inventory P s s1 Hc Hr) as Hinv.
    apply elem_of_app in Hin as [Hin|Hin].
    { rewrite (Hno args fs Hin) in Happly. discriminate Happly. }
    apply elem_of_cons in Hin as [Heq|Hin].
    { injection Heq as -> _. discriminate Happly. }
    apply elem_of_app in Hin as [Hin|Hin].
    { apply render_infos_only in Hin as [err Heq]. discriminate Heq. }
    apply elem_of_cons in Hin as [Heq|Hin].
    { injection Heq as _ ->. rewrite Hs2. cbn [files]. rewrite Hsrc. exact Hinv. }
    exfalso. destruct (exit_err _).
    + by apply elem_of_nil in Hin.
    + apply elem_of_cons in Hin as [Heq|Hin]; [discriminate Heq|].
      by apply elem_of_nil in Hin.
Qed.

(** The scripted platform honours both contracts. *)
Lemma Scripted_run_live_init k fs ctx :
  Scripted.run (liveInitArgs k) fs ctx
  = Scripted.live_init (applyDir k) (drop 3 (liveInitArgs k)) fs ctx.
Proof.
  unfold liveInitArgs. cbn [app].
  repeat (destruct (decide _)); destruct (Force k); reflexivity.
Qed.

Lemma Scripted_live_init_contract : live_init_contract Scripted.platform.
Proof.
  intros k fs ctx. cbn [kpt Scripted.platform]. rewrite Scripted_run_live_init.
  unfold Scripted.live_init, kptFilePath. cbn [filepath_Join Scripted.platform].
  destruct (fs !! _) as [[| | |text kf]|]; try discriminate.
  destruct (kptfile.Inventory kf) eqn:Hi; [discriminate|].
  intros _. cbn [files_after].
  eexists _, _, _. split; [apply lookup_insert_eq | reflexivity].
Qed.

Lemma Scripted_source_contract : source_contract Scripted.platform.
Proof. intros dir fs ctx. reflexivity. Qed.

Lemma apply_requires_inventory_witness :
  let s := Scripted.start ∅ "ctx" (Scripted.deployer "app" "app1" "" "" "") in
  (kptfileInitIfNot Scripted.platform s).1 = None ∧
  has_inventory (files (kptfileInitIfNot Scripted.platform s).2) "app/Kptfile".
Proof.
  intros s.
  apply (apply_requires_inventory Scripted.platform [] s
           Scripted_live_init_contract Scripted_source_contract
           ["live"; "apply"; "app"]).
  - vm_compute. repeat constructor.
  - reflexivity.
Defined.

(** C5 fails on a Kptfile whose document is null: such a file exists,
    decodes without error and has no inventory block, and the run neither
    starts [kpt live init] nor merges: the test of [kfConfig.Inventory]
    dereferences the nil pointer the decoder has left.  The run panics
    before any effect: no command, no warning, no write, the state as
    before. *)
Theorem null_document_panics {Ext} (P : Platform Ext) (s : State Ext) :
  files s !! kptFilePath P (self s) = Some Null →
  kptfileInitIfNot P s = (Some (runtimePanic nil_dereference), s) ∧
  events (kptfileInitIfNot P) s = [] ∧
  length (filter (λ a, is_live_init a) (cmds (events (kptfileInitIfNot P) s))) = 0.
Proof.
  intros Hf. pose proof (kptfileInitIfNot_null P s Hf) as H.
  assert (events (kptfileInitIfNot P) s = []) as Hev.
  { apply events_app. rewrite H. cbn. by rewrite app_nil_r. }
  rewrite Hev. done.
Qed.

Lemma null_document_panics_witness :
  let s := Scripted.start {[ "app/Kptfile" := Null ]} "ctx"
             (Scripted.deployer "app" "app1" "" "" "") in
  kptfileInitIfNot Scripted.platform s = (Some (runtimePanic nil_dereference), s) ∧
  events (kptfileInitIfNot Scripted.platform) s = [] ∧
  length (filter (λ a, is_live_init a)
            (cmds (events (kptfileInitIfNot Scripted.platform) s))) = 0.
Proof.
  intros s. exact (null_document_panics Scripted.platform s eq_refl).
Defined.

(** X26: over an existing Kptfile that decodes to a document, a run either
    bootstraps or merges, never both.  Without inventory block the only
    effect is one run of [kpt live init] (no warning, no write, the
    Deployer untouched); with an inventory block no process is started at
    all. *)
Theorem bootstrap_merge_exclusive {Ext} (P : Platform Ext) (s : State Ext) {text} kf :
  files s !! kptFilePath P (self s) = Some (Doc text kf) →
  let evs := events (kptfileInitIfNot P) s in
  (kptfile.Inventory kf = None →
     evs = [EvRunCmd (liveInitArgs (self s)) (files s)] ∧
     length (filter (λ a, is_live_init a) (cmds evs)) = 1 ∧
     writes evs = [] ∧ warnings evs = [] ∧
     self (kptfileInitIfNot P s).2 = self s) ∧
  (∀ inv, kptfile.Inventory kf = Some inv →
     cmds evs = [] ∧ length (filter (λ a, is_live_init a) (cmds evs)) = 0).
Proof.
  intros Hf evs. subst evs. split.
  - intros Hi.
    pose proof (kptfileInitIfNot_bootstrap P s kf Hf Hi) as H. cbv zeta in H.
    assert (events (kptfileInitIfNot P) s = [EvRunCmd (liveInitArgs (self s)) (files s)])
      as Hev by (apply events_app; rewrite H; reflexivity).
    rewrite Hev, H.
    change (cmds [EvRunCmd (liveInitArgs (self s)) (files s)])
      with [liveInitArgs (self s)].
    split; [reflexivity|]. split; [|done].
    rewrite filter_cons_True by (rewrite is_live_init_liveInitArgs; exact I).
    reflexivity.
  - intros inv Hi.
    pose proof (kptfileInitIfNot_merge P s kf inv Hf Hi) as H. cbv zeta in H.
    assert (cmds (events (kptfileInitIfNot P) s) = []) as Hc.
    { destruct (yaml_Marshal_err P _);
        [|destruct (WriteFile_fault P _ _ _) as [[??]|]].
      all: erewrite events_app by (rewrite H; reflexivity).
      all: rewrite ?cmds_app, cmds_warn; reflexivity. }
    rewrite Hc. split; reflexivity.
Qed.

Lemma bootstrap_merge_exclusive_witness :
  let s := Scripted.start Inputs.uninitialized "ctx" (Scripted.deployer "app" "app1" "" "" "") in
  (kptfile.Inventory Scripted.bare = None →
     events (kptfileInitIfNot Scripted.platform) s
       = [EvRunCmd (liveInitArgs (self s)) (files s)] ∧
     length (filter (λ a, is_live_init a)
               (cmds (events (kptfileInitIfNot Scripted.platform) s))) = 1 ∧
     writes (events (kptfileInitIfNot Scripted.platform) s) = [] ∧
     warnings (events (kptfileInitIfNot Scripted.platform) s) = [] ∧
     self (kptfileInitIfNot Scripted.platform s).2 = self s) ∧
  (∀ inv, kptfile.Inventory Scripted.bare = Some inv →
     cmds (events (kptfileInitIfNot Scripted.platform) s) = [] ∧
     length (filter (λ a, is_live_init a)
               (cmds (events (kptfileInitIfNot Scripted.platform) s))) = 0).
Proof.
  intros s.
  exact (bootstrap_merge_exclusive Scripted.platform s Scripted.bare eq_refl).
Defined.

(** C6: stored namespace [ns-a], per-unit namespace [ns-b], global
    inventory-namespace [ns-c]: the merge branch writes the document with
    namespace [ns-b], and after a successful write that is what the
    Kptfile holds. *)
Theorem namespace_precedence {Ext} (P : Platform Ext) (s : State Ext) {text} kf inv :
  files s !! kptFilePath P (self s) = Some (Doc text kf) →
  kptfile.Inventory kf = Some inv →
  (∀ kf', yaml_Marshal_err P kf' = None) →
  kptfile.Namespace inv = "ns-a" →
  namespace (self s) = "ns-b" →
  InventoryNamespace (self s) = "ns-c" →
  ∃ kf' inv',
    kptfile.Inventory kf' = Some inv' ∧
    kptfile.Namespace inv' = "ns-b" ∧
    writes (events (kptfileInitIfNot P) s) = [(kptFilePath P (self s), kf')] ∧
    (WriteFile_fault P (kptFilePath P (self s)) (files s) (outside s) = None →
     (kptfileInitIfNot P s).1 = None ∧
     files (kptfileInitIfNot P s).2 !! kptFilePath P (self s)
       = Some (Doc (yaml_Marshal_text P kf') kf')).
Proof.
  intros Hf Hi Hm Hs Hn Hg.
  destruct (merge_events P s kf inv Hf Hi (Hm _)) as [Hev _].
  exists (kptfile.set_Inventory kf (merged (self s) inv)), (merged (self s) inv).
  split; [reflexivity|]. split; [|split].
  - rewrite merged_Namespace, Hs, Hn. reflexivity.
  - rewrite Hev, writes_app.
    rewrite writes_warn. reflexivity.
  - intros Hw.
    pose proof (kptfileInitIfNot_merge P s kf inv Hf Hi) as H. cbv zeta in H.
    rewrite Hm, Hw in H. rewrite H. cbn. split; [reflexivity|].
    apply lookup_insert_eq.
Qed.

Lemma namespace_precedence_witness :
  ∃ kf' inv',
    kptfile.Inventory kf' = Some inv' ∧
    kptfile.Namespace inv' = "ns-b" ∧
    writes (events (kptfileInitIfNot Scripted.platform)
              (Scripted.start (Inputs.stored "ns-a" "app1" "id1") "ctx"
                 (Scripted.deployer "app" "app1" "id1" "ns-c" "ns-b")))
      = [("app/Kptfile", kf')] ∧
    (WriteFile_fault Scripted.platform "app/Kptfile"
       (Inputs.stored "ns-a" "app1" "id1") "ctx" = None →
     (kptfileInitIfNot Scripted.platform
        (Scripted.start (Inputs.stored "ns-a" "app1" "id1") "ctx"
           (Scripted.deployer "app" "app1" "id1" "ns-c" "ns-b"))).1 = None ∧
     files (kptfileInitIfNot Scripted.platform
              (Scripted.start (Inputs.stored "ns-a" "app1" "id1") "ctx"
                 (Scripted.deployer "app" "app1" "id1" "ns-c" "ns-b"))).2
       !! "app/Kptfile"
       = Some (Doc (Scripted.render kf') kf')).
Proof.
  exact (namespace_precedence Scripted.platform
           (Scripted.start (Inputs.stored "ns-a" "app1" "id1") "ctx"
              (Scripted.deployer "app" "app1" "id1" "ns-c" "ns-b"))
           (kptfile.mkKptFile "info: {}" (Some (kptfile.mkInventory "ns-a" "app1" "id1" "")))
           (kptfile.mkInventory "ns-a" "app1" "id1" "")
           eq_refl eq_refl (λ _, eq_refl) eq_refl eq_refl eq_refl).
Defined.

(** The per-unit namespace wins over the global one in a run that finds
    a third namespace stored.  A run that finds the per-unit namespace
    stored takes the else-branch of the comparison and writes the global
    inventory-namespace. *)
Example namespace_follows_global :
  events (kptfileInitIfNot Scripted.platform)
         (Scripted.start (Inputs.stored "ns-b" "app1" "id1") "ctx"
            (Scripted.deployer "app" "app1" "id1" "ns-c" "ns-b"))
  = [EvWarn "Updating Kptfile namespace from ns-b to ns-c";
     EvWriteFile "app/Kptfile" (Inputs.doc "ns-c" "app1" "id1")].
Proof. vm_compute. reflexivity. Qed.

(** C7: stored namespace empty and neither namespace desired: the merge
    branch writes the document with the namespace [default]. *)
Theorem namespace_default {Ext} (P : Platform Ext) (s : State Ext) {text} kf inv :
  files s !! kptFilePath P (self s) = Some (Doc text kf) →
  kptfile.Inventory kf = Some inv →
  (∀ kf', yaml_Marshal_err P kf' = None) →
  kptfile.Namespace inv = "" →
  namespace (self s) = "" →
  InventoryNamespace (self s) = "" →
  ∃ kf' inv',
    kptfile.Inventory kf' = Some inv' ∧
    kptfile.Namespace inv' = defaultNs ∧ defaultNs = "default" ∧
    writes (events (kptfileInitIfNot P) s) = [(kptFilePath P (self s), kf')] ∧
    (WriteFile_fault P (kptFilePath P (self s)) (files s) (outside s) = None →
     (kptfileInitIfNot P s).1 = None ∧
     files (kptfileInitIfNot P s).2 !! kptFilePath P (self s)
       = Some (Doc (yaml_Marshal_text P kf') kf')).
Proof.
  intros Hf Hi Hm Hs Hn Hg.
  destruct (merge_events P s kf inv Hf Hi (Hm _)) as [Hev _].
  exists (kptfile.set_Inventory kf (merged (self s) inv)), (merged (self s) inv).
  split; [reflexivity|]. split; [|split; [reflexivity|split]].
  - rewrite merged_Namespace, Hs, Hn. reflexivity.
  - rewrite Hev, writes_app.
    rewrite writes_warn. reflexivity.
  - intros Hw.
    pose proof (kptfileInitIfNot_merge P s kf inv Hf Hi) as H. cbv zeta in H.
    rewrite Hm, Hw in H. rewrite H. cbn. split; [reflexivity|].
    apply lookup_insert_eq.
Qed.

Lemma namespace_default_witness :
  ∃ kf' inv',
    kptfile.Inventory kf' = Some inv' ∧
    kptfile.Namespace inv' = defaultNs ∧ defaultNs = "default" ∧
    writes (events (kptfileInitIfNot Scripted.platform)
              (Scripted.start (Inputs.stored "" "app1" "id1") "ctx"
                 (Scripted.deployer "app" "app1" "id1" "" "")))
      = [("app/Kptfile", kf')] ∧
    (WriteFile_fault Scripted.platform "app/Kptfile"
       (Inputs.stored "" "app1" "id1") "ctx" = None →
     (kptfileInitIfNot Scripted.platform
        (Scripted.start (Inputs.stored "" "app1" "id1") "ctx"
           (Scripted.deployer "app" "app1" "id1" "" ""))).1 = None ∧
     files (kptfileInitIfNot Scripted.platform
              (Scripted.start (Inputs.stored "" "app1" "id1") "ctx"
                 (Scripted.deployer "app" "app1" "id1" "" ""))).2
       !! "app/Kptfile"
       = Some (Doc (Scripted.render kf') kf')).
Proof.
  exact (namespace_default Scripted.platform
           (Scripted.start (Inputs.stored "" "app1" "id1") "ctx"
              (Scripted.deployer "app" "app1" "id1" "" ""))
           (kptfile.mkKptFile "info: {}" (Some (kptfile.mkInventory "" "app1" "id1" "")))
           (kptfile.mkInventory "" "app1" "id1" "")
           eq_refl eq_refl (λ _, eq_refl) eq_refl eq_refl eq_refl).
Defined.
(** C8: when the reconciler returns no error and reading the manifests or
    collecting the namespaces fails, [Deploy] sends at least one
    informational event, then starts [kpt live apply], and when that
    succeeds it tracks the artifacts and returns the collected namespaces
    and no error; after a failed read the namespaces are those collected
    from the empty manifest list. *)
Theorem render_failure_not_fatal {Ext} (P : Platform Ext) builds (s : State Ext) :
  (kptfileInitIfNot P s).1 = None →
  let s1 := (kptfileInitIfNot P s).2 in
  let k := self s1 in
  let r := (getManifests P s1).1 in
  let s2 := (getManifests P s1).2 in
  let o := kpt P (liveApplyArgs k) (files s2) (outside s2) in
  is_Some r.2 ∨ is_Some (CollectNamespaces P r.1).2 →
  render_infos P k r ≠ [] ∧
  events (Deploy P builds) s =
    events (kptfileInitIfNot P) s
    ++ [EvRunCmd ["fn"; "source"; applyDir k] (files s1)]
    ++ render_infos P k r
    ++ [EvRunCmd (liveApplyArgs k) (files s2)]
    ++ match exit_err o with
       | Some _ => []
       | None => [EvTrackBuildArtifacts builds]
       end ∧
  (is_Some r.2 → r.1 = []) ∧
  (exit_err o = None →
   (Deploy P builds s).1 = ((CollectNamespaces P r.1).1, None)).
Proof.
  intros Hr s1 k r s2 o Hfail.
  assert (kptfileInitIfNot P s = (None, s1)) as Hr'
    by (subst s1; destruct (kptfileInitIfNot P s); cbn in *; by subst).
  split; [by apply render_infos_nonempty|].
  split; [exact (Deploy_events P builds s s1 Hr')|].
  split.
  - intros [e He]. exact (getManifests_failed P s1 e He).
  - intros Ho.
    pose proof (Deploy_reconciled P builds s s1 Hr') as HD. cbv zeta in HD.
    fold k r s2 o in HD. rewrite Ho in HD. rewrite HD. reflexivity.
Qed.

Lemma render_failure_not_fatal_witness :
  let P := failing ["fn"; "source"] in
  let s := Scripted.start (Inputs.stored "ns" "app1" "id1") "ctx"
             (Scripted.deployer "app" "app1" "id1" "ns" "ns") in
  let s1 := (kptfileInitIfNot P s).2 in
  let r := (getManifests P s1).1 in
  let s2 := (getManifests P s1).2 in
  let o := kpt P (liveApplyArgs (self s1)) (files s2) (outside s2) in
  render_infos P (self s1) r ≠ [] ∧
  events (Deploy P [graph.mkArtifact "img" "v1"]) s =
    events (kptfileInitIfNot P) s
    ++ [EvRunCmd ["fn"; "source"; applyDir (self s1)] (files s1)]
    ++ render_infos P (self s1) r
    ++ [EvRunCmd (liveApplyArgs (self s1)) (files s2)]
    ++ match exit_err o with
       | Some _ => []
       | None => [EvTrackBuildArtifacts [graph.mkArtifact "img" "v1"]]
       end ∧
  (is_Some r.2 → r.1 = []) ∧
  (exit_err o = None →
   (Deploy P [graph.mkArtifact "img" "v1"] s).1 = ((CollectNamespaces P r.1).1, None)).
Proof.
  intros P s s1 r s2 o.
  apply (render_failure_not_fatal P [graph.mkArtifact "img" "v1"] s).
  - reflexivity.
  - left. vm_compute. eexists. reflexivity.
Defined.

(** C9: when the reconciler returns no error and [kpt live apply] fails
    with [e], [Deploy] returns the nil namespace list and
    [liveApplyErr e dir] for the directory of the Deployer, and its log
    holds no artifact tracking. *)
Theorem apply_failure_is_fatal {Ext} (P : Platform Ext) builds (s : State Ext) e :
  (kptfileInitIfNot P s).1 = None →
  let s1 := (kptfileInitIfNot P s).2 in
  let s2 := (getManifests P s1).2 in
  exit_err (kpt P (liveApplyArgs (self s1)) (files s2) (outside s2)) = Some e →
  (Deploy P builds s).1 = (None, Some (liveApplyErr e (applyDir (self s)))) ∧
  tracked (events (Deploy P builds) s) = [].
Proof.
  intros Hr s1 s2 Ho.
  assert (kptfileInitIfNot P s = (None, s1)) as Hr'
    by (subst s1; destruct (kptfileInitIfNot P s); cbn in *; by subst).
  split.
  - pose proof (Deploy_reconciled P builds s s1 Hr') as HD. cbv zeta in HD.
    fold s2 in HD. rewrite Ho in HD. rewrite HD. cbn [fst].
    subst s1. by rewrite reconcile_applyDir.
  - rewrite (Deploy_events P builds s s1 Hr'). fold s2. rewrite Ho.
    destruct (reconcile_events_only _ (reconcile_events_log P s)) as (Ht & _ & _).
    rewrite !tracked_app.
    rewrite Ht, tracked_render_infos. reflexivity.
Qed.

Lemma apply_failure_is_fatal_witness :
  let P := failing ["live"; "apply"] in
  let s := Scripted.start ∅ "ctx" (Scripted.deployer "app" "app1" "" "" "") in
  (Deploy P [graph.mkArtifact "img" "v1"] s).1
    = (None, Some (liveApplyErr (extErr "exit status 1") "app")) ∧
  tracked (events (Deploy P [graph.mkArtifact "img" "v1"]) s) = [].
Proof.
  intros P s.
  apply (apply_failure_is_fatal P [graph.mkArtifact "img" "v1"] s (extErr "exit status 1")).
  - reflexivity.
  - reflexivity.
Defined.
(** C10: a run through the merge branch leaves the Deployer with its
    per-unit namespace and its global inventory-namespace set to
    [default] where they were empty, also when marshalling or writing
    fails.  Both are then not empty, every later run of the reconciler
    that starts from this Deployer leaves it as it is, and the argument
    list built for [kpt live init] from it carries the per-unit
    namespace after [--namespace]. *)
Theorem merge_defaults_persist {Ext} (P : Platform Ext) (s : State Ext) {text} kf inv :
  files s !! kptFilePath P (self s) = Some (Doc text kf) →
  kptfile.Inventory kf = Some inv →
  let k := self s in
  let k' := self (kptfileInitIfNot P s).2 in
  namespace k' = (if decide (namespace k = "") then "default" else namespace k) ∧
  InventoryNamespace k' =
    (if decide (InventoryNamespace k = "") then "default" else InventoryNamespace k) ∧
  namespace k' ≠ "" ∧ InventoryNamespace k' ≠ "" ∧
  applyDir k' = applyDir k ∧ Name k' = Name k ∧ InventoryID k' = InventoryID k ∧
  (∀ t : State Ext, self t = k' → self (kptfileInitIfNot P t).2 = k') ∧
  (∃ pre post, liveInitArgs k' = pre ++ ["--namespace"; namespace k'] ++ post).
Proof.
  intros Hf Hi k k'.
  assert (k' = defaulted k) as Hk'.
  { subst k'. pose proof (kptfileInitIfNot_merge P s kf inv Hf Hi) as H.
    cbv zeta in H. rewrite H.
    destruct (yaml_Marshal_err P _); [reflexivity|].
    destruct (WriteFile_fault P _ _ _) as [[??]|]; reflexivity. }
  clearbody k'. subst k'.
  assert (namespace (defaulted k) ≠ "") as Hn
    by (rewrite namespace_defaulted; apply or_default_nonempty).
  assert (InventoryNamespace (defaulted k) ≠ "") as Hg
    by (rewrite InventoryNamespace_defaulted; apply or_default_nonempty).
  split; [apply namespace_defaulted|].
  split; [apply InventoryNamespace_defaulted|].
  split; [exact Hn|]. split; [exact Hg|].
  split; [apply applyDir_defaulted|].
  split.
  { unfold defaulted. unfold_fields.
    repeat (destruct (decide _); cbn); reflexivity. }
  split.
  { unfold defaulted. unfold_fields.
    repeat (destruct (decide _); cbn); reflexivity. }
  split.
  - intros t Ht. destruct (reconcile_self P t) as [-> | ->]; [exact Ht|].
    rewrite Ht. by apply defaulted_fixed.
  - generalize dependent (defaulted k). intros k' Hn Hg.
    unfold liveInitArgs.
    rewrite (decide_True (P := namespace k' ≠ "")) by exact Hn.
    match goal with
    | |- context [?a ++ ["--namespace"; namespace k']] => exists a
    end.
    exists (if Force k' then ["--force"; "true"] else []).
    destruct (Force k'); rewrite <- ?app_assoc, ?app_nil_r; reflexivity.
Qed.

Lemma merge_defaults_persist_witness :
  let P := Scripted.platform in
  let s := Scripted.start (Inputs.stored "prod" "app1" "id1") "ctx"
             (Scripted.deployer "app" "app1" "id1" "" "") in
  let k := self s in
  let k' := self (kptfileInitIfNot P s).2 in
  namespace k' = (if decide (namespace k = "") then "default" else namespace k) ∧
  InventoryNamespace k' =
    (if decide (InventoryNamespace k = "") then "default" else InventoryNamespace k) ∧
  namespace k' ≠ "" ∧ InventoryNamespace k' ≠ "" ∧
  applyDir k' = applyDir k ∧ Name k' = Name k ∧ InventoryID k' = InventoryID k ∧
  (∀ t : State string, self t = k' → self (kptfileInitIfNot P t).2 = k') ∧
  (∃ pre post, liveInitArgs k' = pre ++ ["--namespace"; namespace k'] ++ post).
Proof.
  intros P s k k'.
  exact (merge_defaults_persist P s
           (kptfile.mkKptFile "info: {}" (Some (kptfile.mkInventory "prod" "app1" "id1" "")))
           (kptfile.mkInventory "prod" "app1" "id1" "") eq_refl eq_refl).
Defined.

(** ** More about one run of the reconciler *)

Section ReconcileEvents.
Context {Ext : Type} (P : Platform Ext).

(** The events of a run that finds a Kptfile. *)
Lemma reconcile_events_present (s : State Ext) f :
  files s !! kptFilePath P (self s) = Some f →
  events (kptfileInitIfNot P) s =
    match f with
    | Unreadable _ | Garbage _ | Null => []
    | Doc _ kf =>
      match kptfile.Inventory kf with
      | None => [EvRunCmd (liveInitArgs (self s)) (files s)]
      | Some inv =>
        (EvWarn <$> merge_warnings (self s) inv) ++
        match yaml_Marshal_err P (kptfile.set_Inventory kf (merged (self s) inv)) with
        | Some _ => []
        | None => [EvWriteFile (kptFilePath P (self s))
                               (kptfile.set_Inventory kf (merged (self s) inv))]
        end
      end
    end.
Proof.
  intros Hf. apply events_app. destruct f as [err|err| |text kf].
  - rewrite (kptfileInitIfNot_unreadable P s err Hf). cbn. by rewrite app_nil_r.
  - rewrite (kptfileInitIfNot_garbage P s err Hf). cbn. by rewrite app_nil_r.
  - rewrite (kptfileInitIfNot_null P s Hf). cbn. by rewrite app_nil_r.
  - destruct (kptfile.Inventory kf) as [inv|] eqn:Hi.
    + pose proof (kptfileInitIfNot_merge P s kf inv Hf Hi) as H. cbv zeta in H.
      rewrite H.
      destruct (yaml_Marshal_err P _); [by rewrite app_nil_r|].
      destruct (WriteFile_fault P _ _ _) as [[??]|]; reflexivity.
    + pose proof (kptfileInitIfNot_bootstrap P s kf Hf Hi) as H. cbv zeta in H.
      rewrite H. reflexivity.
Qed.

(** The events of a run that finds no Kptfile. *)
Lemma reconcile_events_absent (s : State Ext) :
  files s !! kptFilePath P (self s) = None →
  let k := self s in
  let o := kpt P ["pkg"; "init"; applyDir k] (files s) (outside s) in
  events (kptfileInitIfNot P) s =
    EvRunCmd ["pkg"; "init"; applyDir k] (files s) ::
    match exit_err o with
    | Some _ => []
    | None =>
      match files_after o !! kptFilePath P k with
      | None => []
      | Some _ => events (kptfileInitIfNot P) (after_pkg_init P s)
      end
    end.
Proof.
  intros Hf k o. subst k o. apply events_app.
  pose proof (kptfileInitIfNot_absent P s Hf) as H. cbv zeta in H. rewrite H.
  destruct (exit_err _); [reflexivity|].
  destruct (files_after _ !! _) as [f|] eqn:Hf'; [|reflexivity].
  destruct (reconcile_log P (after_pkg_init P s)) as (evs & Hl & _).
  rewrite (events_app _ _ _ Hl), Hl. unfold after_pkg_init. cbn [log].
  by rewrite <- app_assoc.
Qed.

Lemma cmds_cons_cmd a fs l : cmds (EvRunCmd a fs :: l) = a :: cmds l.
Proof. reflexivity. Qed.
Lemma writes_cons_cmd a fs l : writes (EvRunCmd a fs :: l) = writes l.
Proof. reflexivity. Qed.
Lemma warnings_cons_cmd a fs l : warnings (EvRunCmd a fs :: l) = warnings l.
Proof. reflexivity. Qed.

Lemma is_pkg_init_liveInitArgs k : is_pkg_init (liveInitArgs k) = false.
Proof.
  pose proof (is_live_init_liveInitArgs k) as H.
  unfold is_live_init, is_pkg_init in *.
  apply bool_decide_eq_true_1 in H. apply bool_decide_eq_false_2.
  rewrite H. discriminate.
Qed.

(** The commands of a run that finds a Kptfile: none, or [kpt live init]. *)
Lemma reconcile_cmds_present (s : State Ext) f :
  files s !! kptFilePath P (self s) = Some f →
  cmds (events (kptfileInitIfNot P) s) = [] ∨
  (cmds (events (kptfileInitIfNot P) s) = [liveInitArgs (self s)] ∧
   writes (events (kptfileInitIfNot P) s) = [] ∧
   warnings (events (kptfileInitIfNot P) s) = []).
Proof.
  intros Hf. rewrite (reconcile_events_present s f Hf).
  destruct f as [err|err| |text kf]; [by left|by left|by left|].
  destruct (kptfile.Inventory kf) as [inv|]; [left|by right].
  rewrite cmds_app, cmds_warn. by destruct (yaml_Marshal_err P _).
Qed.

Lemma merge_warnings_length k inv : (length (merge_warnings k inv) ≤ 3)%nat.
Proof.
  unfold merge_warnings. rewrite !length_app.
  repeat (destruct (decide _)); cbn; lia.
Qed.

Lemma reconcile_small_present (s : State Ext) f :
  files s !! kptFilePath P (self s) = Some f →
  (length (writes (events (kptfileInitIfNot P) s)) ≤ 1)%nat ∧
  (length (warnings (events (kptfileInitIfNot P) s)) ≤ 3)%nat.
Proof.
  intros Hf. rewrite (reconcile_events_present s f Hf).
  destruct f as [err|err| |text kf]; [cbn; lia|cbn; lia|cbn; lia|].
  destruct (kptfile.Inventory kf) as [inv|]; [|cbn; lia].
  rewrite writes_app, warnings_app, writes_warn, warnings_warn.
  pose proof (merge_warnings_length (self s) inv).
  destruct (yaml_Marshal_err P _); cbn; rewrite ?length_app; cbn; lia.
Qed.

End ReconcileEvents.

Section ReconcileMore.
Context {Ext : Type} (P : Platform Ext).

Lemma filter_pkg_init_liveInitArgs k :
  filter (λ a, is_pkg_init a) [liveInitArgs k] = [].
Proof.
  rewrite filter_cons_False; [reflexivity|].
  rewrite is_pkg_init_liveInitArgs. exact id.
Qed.

Lemma reconcile_kptFilePath (s : State Ext) :
  kptFilePath P (self (kptfileInitIfNot P s).2) = kptFilePath P (self s).
Proof. unfold kptFilePath. by rewrite reconcile_applyDir. Qed.

Lemma no_pkg_init_present (s : State Ext) f :
  files s !! kptFilePath P (self s) = Some f →
  filter (λ a, is_pkg_init a) (cmds (events (kptfileInitIfNot P) s)) = [].
Proof.
  intros Hf. destruct (reconcile_cmds_present P s f Hf) as [-> | [-> _]];
    [reflexivity | apply filter_pkg_init_liveInitArgs].
Qed.

(** After a merge run in a world where both namespaces agree, nothing
    differs any more. *)
Lemma no_field_differs_merged k inv :
  or_default (namespace k) = or_default (InventoryNamespace k) →
  no_field_differs (defaulted k) (merged k inv).
Proof.
  intros Hns. unfold no_field_differs.
  rewrite namespace_defaulted, InventoryNamespace_defaulted.
  rewrite merged_InventoryID, merged_Name, merged_Namespace, <- Hns.
  rewrite !(or_default_id (or_default _)) by apply or_default_nonempty.
  assert (InventoryID (defaulted k) = InventoryID k) as ->.
  { unfold defaulted. unfold_fields. repeat (destruct (decide _); cbn); reflexivity. }
  assert (Name (defaulted k) = Name k) as ->.
  { unfold defaulted. unfold_fields. repeat (destruct (decide _); cbn); reflexivity. }
  repeat split.
  - destruct (decide (InventoryID k = "")) as [?|Hne]; [by left|right].
    destruct (decide (_ ∧ _)) as [?|Hn]; [reflexivity|].
    destruct (decide (InventoryID k = kptfile.InventoryID inv)); [assumption|].
    exfalso. by apply Hn.
  - destruct (decide (Name k = "")) as [?|Hne]; [by left|right].
    destruct (decide (_ ∧ _)) as [?|Hn]; [reflexivity|].
    destruct (decide (Name k = kptfile.Name inv)); [assumption|].
    exfalso. by apply Hn.
  - destruct (decide (or_default (namespace k) ≠ _)) as [?|Hn]; [reflexivity|].
    destruct (decide (or_default (namespace k) = kptfile.Namespace inv)); [done|].
    exfalso. by apply Hn.
  - destruct (decide (or_default (namespace k) ≠ _)) as [?|Hn]; [reflexivity|].
    destruct (decide (or_default (namespace k) = kptfile.Namespace inv)); [done|].
    exfalso. by apply Hn.
Qed.

Lemma merged_Namespace_changes k inv :
  or_default (namespace k) ≠ or_default (InventoryNamespace k) →
  kptfile.Namespace (merged k inv) ≠ kptfile.Namespace inv ∧
  (kptfile.Namespace (merged k inv) = or_default (namespace k) ∨
   kptfile.Namespace (merged k inv) = or_default (InventoryNamespace k)).
Proof.
  intros Hne. rewrite merged_Namespace.
  destruct (decide (or_default (namespace k) ≠ _)) as [H1|H1]; [by split; [|left]|].
  destruct (decide (or_default (InventoryNamespace k) ≠ _)) as [H2|H2];
    [by split; [|right]|].
  exfalso. apply Hne.
  destruct (decide (or_default (namespace k) = kptfile.Namespace inv)) as [->|]; [|done].
  destruct (decide (or_default (InventoryNamespace k) = kptfile.Namespace inv)); done.
Qed.

End ReconcileMore.

(** ** Further properties of the reconciler *)

(** X1: [kpt pkg init] runs exactly when the Kptfile is missing.  On a
    missing file it is the first effect of the run, started on the file
    system as found, and it is not started again; on an existing file it
    is not started at all. *)
Theorem pkg_init_only_when_missing {Ext} (P : Platform Ext) (s : State Ext) :
  match files s !! kptFilePath P (self s) with
  | None =>
      ∃ rest,
        events (kptfileInitIfNot P) s
          = EvRunCmd ["pkg"; "init"; applyDir (self s)] (files s) :: rest ∧
        filter (λ a, is_pkg_init a) (cmds rest) = []
  | Some _ =>
      filter (λ a, is_pkg_init a) (cmds (events (kptfileInitIfNot P) s)) = []
  end.
Proof.
  destruct (files s !! kptFilePath P (self s)) as [f|] eqn:Hf.
  - exact (no_pkg_init_present P s f Hf).
  - pose proof (reconcile_events_absent P s Hf) as H. cbv zeta in H. rewrite H.
    eexists; split; [reflexivity|].
    destruct (exit_err _); [reflexivity|].
    destruct (files_after _ !! _) as [f|] eqn:Hf'; [|reflexivity].
    exact (no_pkg_init_present P (after_pkg_init P s) f Hf').
Qed.

(** X2: when the Kptfile is missing and [kpt pkg init] fails, the run
    returns [pkgInitErr] with the failure and the directory and does
    nothing else: no read, no other command, no write, and the Deployer is
    as before. *)
Theorem pkg_init_failure {Ext} (P : Platform Ext) (s : State Ext) e :
  let k := self s in
  let o := kpt P ["pkg"; "init"; applyDir k] (files s) (outside s) in
  files s !! kptFilePath P k = None →
  exit_err o = Some e →
  (kptfileInitIfNot P s).1 = Some (pkgInitErr e (applyDir k)) ∧
  events (kptfileInitIfNot P) s = [EvRunCmd ["pkg"; "init"; applyDir k] (files s)] ∧
  self (kptfileInitIfNot P s).2 = k ∧
  files (kptfileInitIfNot P s).2 = files_after o.
Proof.
  intros k o Hf He.
  pose proof (kptfileInitIfNot_absent P s Hf) as H. cbv zeta in H.
  pose proof (reconcile_events_absent P s Hf) as Hev. cbv zeta in Hev.
  fold k o in H, Hev. rewrite He in H, Hev. rewrite H, Hev. done.
Qed.

Lemma pkg_init_failure_witness :
  let P := failing ["pkg"; "init"] in
  (kptfileInitIfNot P Inputs.empty_dir).1
    = Some (pkgInitErr (extErr "exit status 1") "app") ∧
  events (kptfileInitIfNot P) Inputs.empty_dir = [EvRunCmd ["pkg"; "init"; "app"] ∅] ∧
  self (kptfileInitIfNot P Inputs.empty_dir).2 = self Inputs.empty_dir ∧
  files (kptfileInitIfNot P Inputs.empty_dir).2 = ∅.
Proof.
  intros P.
  apply (pkg_init_failure P Inputs.empty_dir (extErr "exit status 1"));
    vm_compute; reflexivity.
Defined.

(** X3: when [kpt pkg init] exits without error but leaves no Kptfile,
    the run stops at the open with [openFileErr] for the path of the
    Kptfile; [kpt live init] is not started. *)
Theorem pkg_init_without_file {Ext} (P : Platform Ext) (s : State Ext) :
  let k := self s in
  let o := kpt P ["pkg"; "init"; applyDir k] (files s) (outside s) in
  files s !! kptFilePath P k = None →
  exit_err o = None →
  files_after o !! kptFilePath P k = None →
  (kptfileInitIfNot P s).1 = Some (openFileErr ENOENT (kptFilePath P k)) ∧
  events (kptfileInitIfNot P) s = [EvRunCmd ["pkg"; "init"; applyDir k] (files s)].
Proof.
  intros k o Hf He Hf'.
  pose proof (kptfileInitIfNot_absent P s Hf) as H. cbv zeta in H.
  pose proof (reconcile_events_absent P s Hf) as Hev. cbv zeta in Hev.
  fold k o in H, Hev. rewrite He, Hf' in H, Hev. rewrite H, Hev. done.
Qed.

Lemma pkg_init_without_file_witness :
  (kptfileInitIfNot inert Inputs.empty_dir).1
    = Some (openFileErr ENOENT "app/Kptfile") ∧
  events (kptfileInitIfNot inert) Inputs.empty_dir = [EvRunCmd ["pkg"; "init"; "app"] ∅].
Proof.
  apply (pkg_init_without_file inert Inputs.empty_dir); vm_compute; reflexivity.
Defined.

(** X4: a Kptfile that cannot be opened gives [openFileErr], one that
    cannot be decoded gives [parseFileErr], each with the path of the
    Kptfile; in both cases the run has no effect at all: the state after
    it is the state before it. *)
Theorem unusable_kptfile {Ext} (P : Platform Ext) (s : State Ext) f :
  files s !! kptFilePath P (self s) = Some f →
  match f with
  | Unreadable err =>
      kptfileInitIfNot P s = (Some (openFileErr err (kptFilePath P (self s))), s)
  | Garbage err =>
      kptfileInitIfNot P s = (Some (parseFileErr err (kptFilePath P (self s))), s)
  | Null | Doc _ _ => True
  end.
Proof.
  intros Hf. destruct f as [err|err| |text kf]; [| |exact I|exact I].
  - exact (kptfileInitIfNot_unreadable P s err Hf).
  - exact (kptfileInitIfNot_garbage P s err Hf).
Qed.

Lemma unusable_kptfile_witness :
  let s := Scripted.start {[ "app/Kptfile" := Garbage (extErr "yaml: line 1") ]} "ctx"
             (Scripted.deployer "app" "app1" "" "" "") in
  kptfileInitIfNot Scripted.platform s
    = (Some (parseFileErr (extErr "yaml: line 1") "app/Kptfile"), s).
Proof.
  intros s.
  apply (unusable_kptfile Scripted.platform s (Garbage (extErr "yaml: line 1"))).
  vm_compute; reflexivity.
Defined.

(** X5: when the Kptfile has no inventory and [kpt live init] fails, the
    run returns [liveInitErr] with the failure and the directory; it has
    started that one command only, written and warned nothing, and the
    Deployer is as before. *)
Theorem live_init_failure {Ext} (P : Platform Ext) (s : State Ext) {text} kf e :
  let k := self s in
  let o := kpt P (liveInitArgs k) (files s) (outside s) in
  files s !! kptFilePath P k = Some (Doc text kf) →
  kptfile.Inventory kf = None →
  exit_err o = Some e →
  (kptfileInitIfNot P s).1 = Some (liveInitErr e (applyDir k)) ∧
  events (kptfileInitIfNot P) s = [EvRunCmd (liveInitArgs k) (files s)] ∧
  self (kptfileInitIfNot P s).2 = k ∧
  files (kptfileInitIfNot P s).2 = files_after o.
Proof.
  intros k o Hf Hi He.
  pose proof (kptfileInitIfNot_bootstrap P s kf Hf Hi) as H. cbv zeta in H.
  fold k o in H. rewrite He in H.
  rewrite (reconcile_events_present P s _ Hf), Hi, H. done.
Qed.

Lemma live_init_failure_witness :
  let P := failing ["live"; "init"] in
  let s := Scripted.start Inputs.uninitialized "ctx"
             (Scripted.deployer "app" "app1" "" "" "") in
  (kptfileInitIfNot P s).1 = Some (liveInitErr (extErr "exit status 1") "app") ∧
  events (kptfileInitIfNot P) s
    = [EvRunCmd ["live"; "init"; "app"; "--name"; "app1"] Inputs.uninitialized] ∧
  self (kptfileInitIfNot P s).2 = self s ∧
  files (kptfileInitIfNot P s).2 = Inputs.uninitialized.
Proof.
  intros P s.
  apply (live_init_failure P s (text := Scripted.render Scripted.bare) Scripted.bare
           (extErr "exit status 1"));
    vm_compute; reflexivity.
Defined.

(** X6: when [yaml.Marshal] fails in the merge branch, the run returns
    that error as it is, writes nothing and leaves the files untouched;
    the warnings about the overwritten fields have been logged all the
    same, and the namespaces of the Deployer have been defaulted. *)
Theorem merge_marshal_failure {Ext} (P : Platform Ext) (s : State Ext) {text} kf inv e :
  let k := self s in
  files s !! kptFilePath P k = Some (Doc text kf) →
  kptfile.Inventory kf = Some inv →
  yaml_Marshal_err P (kptfile.set_Inventory kf (merged k inv)) = Some e →
  (kptfileInitIfNot P s).1 = Some e ∧
  files (kptfileInitIfNot P s).2 = files s ∧
  writes (events (kptfileInitIfNot P) s) = [] ∧
  cmds (events (kptfileInitIfNot P) s) = [] ∧
  warnings (events (kptfileInitIfNot P) s) = merge_warnings k inv ∧
  namespace (self (kptfileInitIfNot P s).2) = or_default (namespace k) ∧
  InventoryNamespace (self (kptfileInitIfNot P s).2) = or_default (InventoryNamespace k).
Proof.
  intros k Hf Hi Hm.
  pose proof (kptfileInitIfNot_merge P s kf inv Hf Hi) as H. cbv zeta in H.
  fold k in H. rewrite Hm in H.
  rewrite (reconcile_events_present P s _ Hf), Hi. fold k. rewrite Hm, H, app_nil_r.
  rewrite writes_warn, cmds_warn, warnings_warn. cbn [fst snd files self].
  rewrite namespace_defaulted, InventoryNamespace_defaulted. done.
Qed.

Lemma merge_marshal_failure_witness :
  let P := faulty_io (Some (extErr "cannot marshal")) None in
  (kptfileInitIfNot P Inputs.nothing_desired).1 = Some (extErr "cannot marshal") ∧
  files (kptfileInitIfNot P Inputs.nothing_desired).2 = files Inputs.nothing_desired ∧
  writes (events (kptfileInitIfNot P) Inputs.nothing_desired) = [] ∧
  cmds (events (kptfileInitIfNot P) Inputs.nothing_desired) = [] ∧
  warnings (events (kptfileInitIfNot P) Inputs.nothing_desired)
    = merge_warnings (self Inputs.nothing_desired)
        (kptfile.mkInventory "prod" "app1" "id1" "") ∧
  namespace (self (kptfileInitIfNot P Inputs.nothing_desired).2)
    = or_default (namespace (self Inputs.nothing_desired)) ∧
  InventoryNamespace (self (kptfileInitIfNot P Inputs.nothing_desired).2)
    = or_default (InventoryNamespace (self Inputs.nothing_desired)).
Proof.
  intros P.
  apply (merge_marshal_failure P Inputs.nothing_desired
           (text := Inputs.hand_text (Inputs.doc "prod" "app1" "id1")) (Inputs.doc "prod" "app1" "id1")
           (kptfile.mkInventory "prod" "app1" "id1" "")
           (extErr "cannot marshal")); vm_compute; reflexivity.
Defined.

(** X7: when [ioutil.WriteFile] fails in the merge branch, the run
    returns that error as it is, without the path, after the one write
    attempt; the files are what the failed write left. *)
Theorem merge_write_failure {Ext} (P : Platform Ext) (s : State Ext) {text} kf inv e fs' :
  let k := self s in
  let kf' := kptfile.set_Inventory kf (merged k inv) in
  files s !! kptFilePath P k = Some (Doc text kf) →
  kptfile.Inventory kf = Some inv →
  yaml_Marshal_err P kf' = None →
  WriteFile_fault P (kptFilePath P k) (files s) (outside s) = Some (e, fs') →
  (kptfileInitIfNot P s).1 = Some e ∧
  files (kptfileInitIfNot P s).2 = fs' ∧
  writes (events (kptfileInitIfNot P) s) = [(kptFilePath P k, kf')] ∧
  cmds (events (kptfileInitIfNot P) s) = [].
Proof.
  intros k kf' Hf Hi Hm Hw.
  pose proof (kptfileInitIfNot_merge P s kf inv Hf Hi) as H. cbv zeta in H.
  fold k kf' in H. rewrite Hm, Hw in H.
  rewrite (reconcile_events_present P s _ Hf), Hi. fold k kf'. rewrite Hm, H.
  rewrite writes_app, cmds_app, writes_warn, cmds_warn. done.
Qed.

Lemma merge_write_failure_witness :
  let P := faulty_io None (Some (extErr "disk full")) in
  (kptfileInitIfNot P Inputs.nothing_desired).1 = Some (extErr "disk full") ∧
  files (kptfileInitIfNot P Inputs.nothing_desired).2 = files Inputs.nothing_desired ∧
  writes (events (kptfileInitIfNot P) Inputs.nothing_desired)
    = [("app/Kptfile", Inputs.doc "default" "app1" "id1")] ∧
  cmds (events (kptfileInitIfNot P) Inputs.nothing_desired) = [].
Proof.
  intros P.
  apply (merge_write_failure P Inputs.nothing_desired
           (text := Inputs.hand_text (Inputs.doc "prod" "app1" "id1")) (Inputs.doc "prod" "app1" "id1")
           (kptfile.mkInventory "prod" "app1" "id1" "")
           (extErr "disk full") (files Inputs.nothing_desired));
    vm_compute; reflexivity.
Defined.

(** X8: what a run of the reconciler can do at most.  Its commands are
    none, [kpt pkg init], [kpt live init], or the two in this order; it
    writes at most once and warns at most three times; a run that starts
    [kpt live init] neither writes nor warns; it sends no deploy event
    and tracks no artifact. *)
Theorem reconcile_footprint {Ext} (P : Platform Ext) (s : State Ext) :
  let k := self s in
  let evs := events (kptfileInitIfNot P) s in
  let init := ["pkg"; "init"; applyDir k] in
  (cmds evs = [] ∨ cmds evs = [init] ∨
   (cmds evs = [liveInitArgs k] ∧ writes evs = [] ∧ warnings evs = []) ∨
   (cmds evs = [init; liveInitArgs k] ∧ writes evs = [] ∧ warnings evs = [])) ∧
  (length (writes evs) ≤ 1)%nat ∧
  (length (warnings evs) ≤ 3)%nat ∧
  infos evs = [] ∧ tracked evs = [].
Proof.
  intros k evs init. subst k evs init.
  destruct (reconcile_events_only _ (reconcile_events_log P s)) as (Ht & Hi & _).
  split; [|split; [|split; [|by split]]].
  - destruct (files s !! kptFilePath P (self s)) as [f|] eqn:Hf.
    + destruct (reconcile_cmds_present P s f Hf) as [H|H]; [by left|by right; right; left].
    + pose proof (reconcile_events_absent P s Hf) as H. cbv zeta in H. rewrite H.
      destruct (exit_err _); [by right; left|].
      destruct (files_after _ !! _) as [f|] eqn:Hf'; [|by right; left].
      destruct (reconcile_cmds_present P (after_pkg_init P s) f Hf')
        as [Hc|(Hc & Hw & Hwarn)].
      * right; left. by rewrite cmds_cons_cmd, Hc.
      * right; right; right.
        rewrite cmds_cons_cmd, writes_cons_cmd, warnings_cons_cmd, Hc, Hw, Hwarn. done.
  - destruct (files s !! kptFilePath P (self s)) as [f|] eqn:Hf.
    + by destruct (reconcile_small_present P s f Hf).
    + pose proof (reconcile_events_absent P s Hf) as H. cbv zeta in H. rewrite H.
      rewrite ?writes_cons_cmd, ?warnings_cons_cmd.
      destruct (exit_err _); [cbn; lia|].
      destruct (files_after _ !! _) as [f|] eqn:Hf'; [|cbn; lia].
      by destruct (reconcile_small_present P (after_pkg_init P s) f Hf').
  - destruct (files s !! kptFilePath P (self s)) as [f|] eqn:Hf.
    + by destruct (reconcile_small_present P s f Hf).
    + pose proof (reconcile_events_absent P s Hf) as H. cbv zeta in H. rewrite H.
      rewrite ?writes_cons_cmd, ?warnings_cons_cmd.
      destruct (exit_err _); [cbn; lia|].
      destruct (files_after _ !! _) as [f|] eqn:Hf'; [|cbn; lia].
      by destruct (reconcile_small_present P (after_pkg_init P s) f Hf').
Qed.

(** X9: whatever a run of the reconciler does and however it ends, it
    leaves the directory, the name, the inventory id, the flags and the
    force switch of the Deployer as they were, and it changes a namespace
    of the Deployer only from empty to [default]. *)
Theorem reconcile_keeps_deployer {Ext} (P : Platform Ext) (s : State Ext) :
  let k := self s in
  let k' := self (kptfileInitIfNot P s).2 in
  applyDir k' = applyDir k ∧ Name k' = Name k ∧ InventoryID k' = InventoryID k ∧
  Flags k' = Flags k ∧ ApplyFlags k' = ApplyFlags k ∧ Force k' = Force k ∧
  (namespace k' = namespace k ∨ (namespace k = "" ∧ namespace k' = defaultNs)) ∧
  (InventoryNamespace k' = InventoryNamespace k ∨
   (InventoryNamespace k = "" ∧ InventoryNamespace k' = defaultNs)).
Proof.
  intros k k'. subst k k'.
  destruct (reconcile_self P s) as [-> | ->].
  - repeat split; by left.
  - unfold defaulted. unfold_fields.
    destruct (decide (namespace (self s) = "")); cbn;
      destruct (decide (_ = "")); cbn; repeat split; auto.
Qed.

(** X10: what the reconciler is for.  When [kpt live init] keeps its
    contract, every run that returns no error, along whichever branch,
    leaves a Kptfile that decodes and holds an inventory block. *)
Theorem reconcile_guarantees_inventory {Ext} (P : Platform Ext) (s : State Ext) :
  live_init_contract P →
  (kptfileInitIfNot P s).1 = None →
  has_inventory (files (kptfileInitIfNot P s).2) (kptFilePath P (self s)).
Proof.
  intros Hc Hr. apply (reconciled_has_inventory P s _ Hc).
  destruct (kptfileInitIfNot P s) as [r s1]. cbn in Hr. by subst r.
Qed.

Lemma reconcile_guarantees_inventory_witness :
  has_inventory (files (kptfileInitIfNot Scripted.platform Inputs.empty_dir).2)
                "app/Kptfile".
Proof.
  apply (reconcile_guarantees_inventory Scripted.platform Inputs.empty_dir
           Scripted_live_init_contract).
  vm_compute; reflexivity.
Defined.

(** X11: bootstrapping happens once.  When [kpt live init] keeps its
    contract, the run that follows a run without error, on the state that
    run left, starts no command at all: it goes through the merge branch. *)
Theorem second_run_does_not_bootstrap {Ext} (P : Platform Ext) (s : State Ext) :
  live_init_contract P →
  (kptfileInitIfNot P s).1 = None →
  cmds (events (kptfileInitIfNot P) (kptfileInitIfNot P s).2) = [].
Proof.
  intros Hc Hr.
  assert (kptfileInitIfNot P s = (None, (kptfileInitIfNot P s).2)) as Hr'
    by (destruct (kptfileInitIfNot P s) as [r s1]; cbn in *; by subst r).
  destruct (reconciled_has_inventory P s _ Hc Hr') as (text & kf & inv & Hf & Hi).
  rewrite <- (reconcile_kptFilePath P s) in Hf.
  rewrite (reconcile_events_present P _ _ Hf), Hi, cmds_app, cmds_warn.
  by destruct (yaml_Marshal_err P _).
Qed.

Lemma second_run_does_not_bootstrap_witness :
  cmds (events (kptfileInitIfNot Scripted.platform)
          (kptfileInitIfNot Scripted.platform Inputs.empty_dir).2) = [].
Proof.
  apply (second_run_does_not_bootstrap Scripted.platform Inputs.empty_dir
           Scripted_live_init_contract).
  vm_compute; reflexivity.
Defined.

(** X12: the merge settles when the two namespaces of the Deployer agree
    (each read as [default] when empty).  After a merge run whose write
    succeeded, the next run on the state it left logs no warning and
    writes the document that is already there. *)
Theorem merge_settles {Ext} (P : Platform Ext) (s : State Ext) {text} kf inv :
  let k := self s in
  let s1 := (kptfileInitIfNot P s).2 in
  files s !! kptFilePath P k = Some (Doc text kf) →
  kptfile.Inventory kf = Some inv →
  (∀ kf', yaml_Marshal_err P kf' = None) →
  WriteFile_fault P (kptFilePath P k) (files s) (outside s) = None →
  or_default (namespace k) = or_default (InventoryNamespace k) →
  ∃ kf1,
    files s1 !! kptFilePath P k = Some (Doc (yaml_Marshal_text P kf1) kf1) ∧
    events (kptfileInitIfNot P) s1 = [EvWriteFile (kptFilePath P k) kf1].
Proof.
  intros k s1 Hf Hi Hm Hw Hns.
  pose proof (kptfileInitIfNot_merge P s kf inv Hf Hi) as H. cbv zeta in H.
  fold k in H. rewrite Hm, Hw in H.
  exists (kptfile.set_Inventory kf (merged k inv)).
  assert (files s1 !! kptFilePath P (self s1)
          = Some (Doc (yaml_Marshal_text P (kptfile.set_Inventory kf (merged k inv)))
                      (kptfile.set_Inventory kf (merged k inv)))) as Hf1.
  { subst s1. rewrite reconcile_kptFilePath. rewrite H. cbn [snd files].
    apply lookup_insert_eq. }
  assert (self s1 = defaulted k) as Hk1 by (subst s1; by rewrite H).
  split; [unfold k; by rewrite <- (reconcile_kptFilePath P s)|].
  rewrite (reconcile_events_present P s1 _ Hf1). cbn [kptfile.Inventory kptfile.set_Inventory].
  rewrite Hm, Hk1.
  pose proof (no_field_differs_merged _ inv Hns) as Hsame.
  rewrite (merge_warnings_same _ _ Hsame), (merged_same _ _ Hsame).
  rewrite kptFilePath_defaulted. reflexivity.
Qed.

Lemma merge_settles_witness :
  ∃ kf1,
    files (kptfileInitIfNot Scripted.platform Inputs.nothing_desired).2 !! "app/Kptfile"
      = Some (Doc (Scripted.render kf1) kf1) ∧
    events (kptfileInitIfNot Scripted.platform)
           (kptfileInitIfNot Scripted.platform Inputs.nothing_desired).2
      = [EvWriteFile "app/Kptfile" kf1].
Proof.
  apply (merge_settles Scripted.platform Inputs.nothing_desired
           (text := Inputs.hand_text (Inputs.doc "prod" "app1" "id1"))
           (Inputs.doc "prod" "app1" "id1")
           (kptfile.mkInventory "prod" "app1" "id1" "")); vm_compute; reflexivity.
Defined.

(** X13: the merge never settles when the two namespaces of the Deployer
    disagree (each read as [default] when empty).  Every merge run then
    writes a namespace different from the one it found, namely one of the
    two desired ones, and logs the warning for it. *)
Theorem merge_alternates {Ext} (P : Platform Ext) (s : State Ext) {text} kf inv :
  let k := self s in
  files s !! kptFilePath P k = Some (Doc text kf) →
  kptfile.Inventory kf = Some inv →
  (∀ kf', yaml_Marshal_err P kf' = None) →
  or_default (namespace k) ≠ or_default (InventoryNamespace k) →
  ∃ kf' inv',
    writes (events (kptfileInitIfNot P) s) = [(kptFilePath P k, kf')] ∧
    kptfile.Inventory kf' = Some inv' ∧
    kptfile.Namespace inv' ≠ kptfile.Namespace inv ∧
    (kptfile.Namespace inv' = or_default (namespace k) ∨
     kptfile.Namespace inv' = or_default (InventoryNamespace k)) ∧
    ("Updating Kptfile namespace from " +:+ kptfile.Namespace inv +:+ " to "
       +:+ kptfile.Namespace inv') ∈ warnings (events (kptfileInitIfNot P) s).
Proof.
  intros k Hf Hi Hm Hne.
  exists (kptfile.set_Inventory kf (merged k inv)), (merged k inv).
  rewrite (reconcile_events_present P s _ Hf), Hi. fold k. rewrite Hm.
  rewrite writes_app, warnings_app, writes_warn, warnings_warn.
  destruct (merged_Namespace_changes k inv Hne) as [Hch Hor].
  split; [reflexivity|]. split; [reflexivity|]. split; [exact Hch|]. split; [exact Hor|].
  cbn [warnings omap]. rewrite app_nil_r.
  rewrite merged_Namespace in *. unfold merge_warnings.
  apply elem_of_app; right. apply elem_of_app; right.
  destruct (decide (or_default (namespace k) ≠ _)); [apply list_elem_of_here|].
  destruct (decide (or_default (InventoryNamespace k) ≠ _)); [apply list_elem_of_here|].
  done.
Qed.

Lemma merge_alternates_witness :
  let s := Scripted.start (Inputs.stored "ns-b" "app1" "id1") "ctx"
             (Scripted.deployer "app" "app1" "id1" "ns-c" "ns-b") in
  ∃ kf' inv',
    writes (events (kptfileInitIfNot Scripted.platform) s) = [("app/Kptfile", kf')] ∧
    kptfile.Inventory kf' = Some inv' ∧
    kptfile.Namespace inv' ≠ "ns-b" ∧
    (kptfile.Namespace inv' = or_default "ns-b" ∨
     kptfile.Namespace inv' = or_default "ns-c") ∧
    ("Updating Kptfile namespace from " +:+ "ns-b" +:+ " to " +:+ kptfile.Namespace inv')
      ∈ warnings (events (kptfileInitIfNot Scripted.platform) s).
Proof.
  intros s.
  apply (merge_alternates Scripted.platform s
           (text := Inputs.hand_text (Inputs.doc "ns-b" "app1" "id1"))
           (Inputs.doc "ns-b" "app1" "id1")
           (kptfile.mkInventory "ns-b" "app1" "id1" "")).
  - vm_compute; reflexivity.
  - reflexivity.
  - intros kf'. reflexivity.
  - vm_compute. discriminate.
Defined.



(** The write replaces the bytes even when no field differs: on
    [Inputs.agreeing] the Kptfile somebody has edited by hand is not the
    same file after the run. *)
Example merge_rewrites_the_file :
  files Inputs.agreeing !! "app/Kptfile"
    = Some (Doc ("# edited by hand; info: {}; inventory: {namespace: ns, name: app1, "
                 +:+ "inventoryID: id1}")
                (Inputs.doc "ns" "app1" "id1")) ∧
  files (kptfileInitIfNot Scripted.platform Inputs.agreeing).2 !! "app/Kptfile"
    = Some (Doc "info: {}; inventory: {namespace: ns, name: app1, inventoryID: id1}"
                (Inputs.doc "ns" "app1" "id1")).
Proof. split; vm_compute; reflexivity. Qed.

(** ** Reading the rendered manifests *)

Section Manifests.
Context {Ext : Type} (P : Platform Ext).

Lemma string_app_assoc (a b c : string) : (a +:+ b) +:+ c = a +:+ (b +:+ c).
Proof.
  induction a as [|x a IH]; [reflexivity|].
  change (String x ((a +:+ b) +:+ c) = String x (a +:+ (b +:+ c))). by rewrite IH.
Qed.

Lemma string_app_nil_r (a : string) : a +:+ "" = a.
Proof.
  induction a as [|x a IH]; [reflexivity|].
  change (String x (a +:+ "") = String x a). by rewrite IH.
Qed.

Lemma concat_cons (x : string) (xs : list string) :
  String.concat "" (x :: xs) = x +:+ String.concat "" xs.
Proof. destruct xs; cbn; [by rewrite string_app_nil_r | reflexivity]. Qed.

Lemma items_String_ok (strs : list string) (acc : string) :
  items_String (inr <$> strs) acc = inr (acc +:+ String.concat "" strs).
Proof.
  revert acc. induction strs as [|x xs IH]; intros acc.
  - cbn. by rewrite string_app_nil_r.
  - rewrite concat_cons. cbn [fmap list_fmap items_String]. rewrite IH.
    by rewrite string_app_assoc.
Qed.

Lemma items_String_err (strs : list string) e rest (acc : string) :
  items_String ((inr <$> strs) ++ inl e :: rest) acc = inl e.
Proof.
  revert acc. induction strs as [|x xs IH]; intros acc; [reflexivity|].
  cbn [fmap list_fmap app items_String]. apply IH.
Qed.

Lemma getManifests_result (s : State Ext) :
  let k := self s in
  let o := kpt P (fnSourceArgs k) (files s) (outside s) in
  (getManifests P s).1 =
    match exit_err o with
    | Some err => ([], Some (sourceErr err (applyDir k)))
    | None =>
      match ResourceList_Read P (stdout o) with
      | inl err => ([], Some (sourceErr err (applyDir k)))
      | inr items =>
        match items_String items "" with
        | inl err => ([], Some (sourceErr err (applyDir k)))
        | inr newBuf =>
            (if decide (0 < String.length (stdout o))
             then ManifestList_Append P [] newBuf else [], None)
        end
      end
    end.
Proof.
  cbv zeta. unfold getManifests, fnSourceArgs. run_monad.
  destruct (exit_err _); [reflexivity|].
  destruct (ResourceList_Read P _); [reflexivity|].
  destruct (items_String _ _); reflexivity.
Qed.

End Manifests.

(** X15: [getManifests] starts the one command [kpt fn source] on the
    directory of the Deployer and leaves the Deployer as it is; whenever
    it returns an error, the error is a [sourceErr] carrying that
    directory and the manifest list is empty. *)
Theorem getManifests_errors {Ext} (P : Platform Ext) (s : State Ext) :
  let k := self s in
  events (getManifests P) s = [EvRunCmd ["fn"; "source"; applyDir k] (files s)] ∧
  self (getManifests P s).2 = k ∧
  match (getManifests P s).1.2 with
  | Some e => (getManifests P s).1.1 = [] ∧ ∃ cause, e = sourceErr cause (applyDir k)
  | None => True
  end.
Proof.
  intros k. subst k.
  pose proof (getManifests_state P s) as Hs. cbv zeta in Hs.
  split; [apply events_app; by rewrite Hs|]. split; [by rewrite Hs|].
  pose proof (getManifests_result P s) as H. cbv zeta in H. rewrite H.
  destruct (exit_err _); [cbn; by eauto|].
  destruct (ResourceList_Read P _); [cbn; by eauto|].
  destruct (items_String _ _); [cbn; by eauto|exact I].
Qed.

(** X16: when [kpt fn source] succeeds and every item of the resource
    list renders, [getManifests] returns no error and the manifest list
    made by appending, to the empty list, the texts of the items joined
    in order; but when the command printed nothing the list is empty,
    whatever the items are. *)
Theorem getManifests_collects_items {Ext} (P : Platform Ext) (s : State Ext) strs :
  let k := self s in
  let o := kpt P ["fn"; "source"; applyDir k] (files s) (outside s) in
  exit_err o = None →
  ResourceList_Read P (stdout o) = inr (inr <$> strs) →
  (getManifests P s).1 =
    (if decide (stdout o = "") then []
     else ManifestList_Append P [] (String.concat "" strs), None).
Proof.
  intros k o He Hr.
  pose proof (getManifests_result P s) as H. cbv zeta in H.
  unfold fnSourceArgs in H. fold k o in H.
  rewrite He, Hr, items_String_ok in H. rewrite H. cbn [String.append].
  destruct (stdout o) as [|c out]; [reflexivity|].
  rewrite decide_True by (cbn; lia). by rewrite decide_False.
Qed.

Lemma getManifests_collects_items_witness :
  let P := rendering "kind: ResourceList" (inr [inr "a: 1"; inr "b: 2"]) in
  let s := Inputs.agreeing in
  (getManifests P s).1 = ([String.concat "" ["a: 1"; "b: 2"]], None).
Proof.
  intros P s.
  apply (getManifests_collects_items P s ["a: 1"; "b: 2"]); vm_compute; reflexivity.
Defined.

(** X17: when an item of the resource list fails to render, the error of
    the first such item is returned as [sourceErr] with the directory;
    the items before it are dropped and the items after it not looked at. *)
Theorem getManifests_item_failure {Ext} (P : Platform Ext) (s : State Ext)
    strs e rest :
  let k := self s in
  let o := kpt P ["fn"; "source"; applyDir k] (files s) (outside s) in
  exit_err o = None →
  ResourceList_Read P (stdout o) = inr ((inr <$> strs) ++ inl e :: rest) →
  (getManifests P s).1 = ([], Some (sourceErr e (applyDir k))).
Proof.
  intros k o He Hr.
  pose proof (getManifests_result P s) as H. cbv zeta in H.
  unfold fnSourceArgs in H. fold k o in H.
  rewrite He, Hr, items_String_err in H. exact H.
Qed.

Lemma getManifests_item_failure_witness :
  let P := rendering "kind: ResourceList"
             (inr [inr "a: 1"; inl (extErr "bad node"); inl (extErr "later")]) in
  (getManifests P Inputs.agreeing).1 = ([], Some (sourceErr (extErr "bad node") "app")).
Proof.
  intros P.
  apply (getManifests_item_failure P Inputs.agreeing ["a: 1"] (extErr "bad node")
           [inl (extErr "later")]); vm_compute; reflexivity.
Defined.

(** ** Deploy and Cleanup as a whole *)

Section Session.
Context {Ext : Type} (P : Platform Ext).

Lemma reconcile_result (s : State Ext) r :
  (kptfileInitIfNot P s).1 = r → kptfileInitIfNot P s = (r, (kptfileInitIfNot P s).2).
Proof. destruct (kptfileInitIfNot P s) as [r' s1]. cbn. by intros ->. Qed.

Lemma writes_render_infos k r : writes (render_infos P k r) = [].
Proof.
  unfold render_infos. destruct (r.2), ((CollectNamespaces P r.1).2); reflexivity.
Qed.
Lemma warnings_render_infos k r : warnings (render_infos P k r) = [].
Proof.
  unfold render_infos. destruct (r.2), ((CollectNamespaces P r.1).2); reflexivity.
Qed.
Lemma cmds_render_infos k r : cmds (render_infos P k r) = [].
Proof.
  unfold render_infos. destruct (r.2), ((CollectNamespaces P r.1).2); reflexivity.
Qed.

Lemma Cleanup_failed_reconcile (s s1 : State Ext) e :
  kptfileInitIfNot P s = (Some e, s1) → Cleanup P s = (Some e, s1).
Proof.
  intros H. unfold Cleanup, kptInitFunc. unfold mbind at 1, M_bind at 1.
  rewrite H. reflexivity.
Qed.

Lemma Cleanup_reconciled (s s1 : State Ext) :
  kptfileInitIfNot P s = (None, s1) →
  let k := self s1 in
  let o := kpt P (liveDestroyArgs k) (files s1) (outside s1) in
  Cleanup P s =
    (match exit_err o with
     | Some e => Some (liveDestroyErr e (applyDir k))
     | None => None
     end,
     mkState (files_after o) (outside_after o) k
             (log s1 ++ [EvRunCmd (liveDestroyArgs k) (files s1)])).
Proof.
  intros H k o. subst k o.
  unfold Cleanup, kptInitFunc. unfold mbind at 1, M_bind at 1.
  rewrite H. unfold liveDestroyArgs. do 2 run_monad. cbn.
  destruct (exit_err _); reflexivity.
Qed.

Lemma liveDestroyArgs_defaulted k : liveDestroyArgs (defaulted k) = liveDestroyArgs k.
Proof.
  unfold liveDestroyArgs, defaulted. unfold_fields.
  repeat (destruct (decide _); cbn); reflexivity.
Qed.

Lemma reconcile_liveDestroyArgs (s : State Ext) :
  liveDestroyArgs (self (kptfileInitIfNot P s).2) = liveDestroyArgs (self s).
Proof.
  destruct (reconcile_self P s) as [-> | ->];
    [reflexivity | apply liveDestroyArgs_defaulted].
Qed.

Lemma Cleanup_events (s s1 : State Ext) :
  kptfileInitIfNot P s = (None, s1) →
  events (Cleanup P) s =
    events (kptfileInitIfNot P) s ++ [EvRunCmd (liveDestroyArgs (self s)) (files s1)].
Proof.
  intros Hr.
  destruct (reconcile_log P s) as (evs & Hl & _).
  rewrite (events_app _ _ _ Hl). rewrite Hr in Hl. cbn [snd] in Hl.
  pose proof (Cleanup_reconciled s s1 Hr) as HC. cbv zeta in HC.
  apply events_app. rewrite HC. cbn [snd log]. rewrite Hl, <- app_assoc.
  pose proof (reconcile_liveDestroyArgs s) as Hd. rewrite Hr in Hd. cbn [snd] in Hd.
  by rewrite Hd.
Qed.

Lemma initializer_not_destroy args :
  is_initializer args = true → is_live_destroy args = false.
Proof.
  unfold is_initializer, is_pkg_init, is_live_init, is_live_destroy.
  intros H. apply bool_decide_eq_false_2. intros Ha. rewrite Ha in H.
  discriminate H.
Qed.

Lemma reconcile_no_destroy (s : State Ext) args fs :
  EvRunCmd args fs ∈ events (kptfileInitIfNot P) s → is_live_destroy args = false.
Proof.
  intros Hin. pose proof (reconcile_events_log P s) as Hall.
  rewrite Forall_forall in Hall. specialize (Hall _ Hin). cbn in Hall.
  by apply initializer_not_destroy.
Qed.

End Session.

(** X18: when the reconciler returns an error, [Deploy] returns the nil
    namespace list and that same error, not wrapped again, and stops
    there: the state it leaves is the state the reconciler left, so no
    manifest is read, nothing is applied and nothing is tracked. *)
Theorem Deploy_aborts_on_reconcile_error {Ext} (P : Platform Ext) builds (s : State Ext) e :
  (kptfileInitIfNot P s).1 = Some e →
  Deploy P builds s = ((None, Some e), (kptfileInitIfNot P s).2).
Proof.
  intros Hr. apply Deploy_failed_reconcile. by apply reconcile_result.
Qed.

Lemma Deploy_aborts_on_reconcile_error_witness :
  let P := failing ["pkg"; "init"] in
  Deploy P [graph.mkArtifact "img" "v1"] Inputs.empty_dir
    = ((None, Some (pkgInitErr (extErr "exit status 1") "app")),
       (kptfileInitIfNot P Inputs.empty_dir).2).
Proof.
  intros P.
  apply (Deploy_aborts_on_reconcile_error P [graph.mkArtifact "img" "v1"]
           Inputs.empty_dir (pkgInitErr (extErr "exit status 1") "app")).
  vm_compute; reflexivity.
Defined.

(** X19: a [Deploy] in which the reconciler and [kpt live apply] both
    succeed returns the namespaces collected from the manifests and no
    error.  After the commands of the reconciler it has started
    [kpt fn source] and then [kpt live apply] with the directory, the
    flags and the apply flags of the Deployer, and nothing else, and it
    has registered the build artifacts exactly once, as its last effect. *)
Theorem Deploy_success {Ext} (P : Platform Ext) builds (s : State Ext) :
  let s1 := (kptfileInitIfNot P s).2 in
  let r := (getManifests P s1).1 in
  let s2 := (getManifests P s1).2 in
  let k := self s in
  (kptfileInitIfNot P s).1 = None →
  exit_err (kpt P (liveApplyArgs k) (files s2) (outside s2)) = None →
  (Deploy P builds s).1 = ((CollectNamespaces P r.1).1, None) ∧
  cmds (events (Deploy P builds) s) =
    cmds (events (kptfileInitIfNot P) s)
    ++ [["fn"; "source"; applyDir k];
        ["live"; "apply"; applyDir k] ++ Flags k ++ ApplyFlags k] ∧
  tracked (events (Deploy P builds) s) = [builds] ∧
  last (events (Deploy P builds) s) = Some (EvTrackBuildArtifacts builds).
Proof.
  intros s1 r s2 k Hr Ho.
  pose proof (reconcile_result P s _ Hr) as Hr'. fold s1 in Hr'.
  pose proof (reconcile_liveApplyArgs P s) as Ha. fold s1 k in Ha.
  pose proof (reconcile_applyDir P s) as Hd. fold s1 k in Hd.
  pose proof (Deploy_reconciled P builds s s1 Hr') as HD. cbv zeta in HD.
  pose proof (Deploy_events P builds s s1 Hr') as HE. cbv zeta in HE.
  fold r s2 in HD, HE. rewrite Ha, Hd in HD, HE. rewrite Ho in HD, HE.
  destruct (reconcile_events_only _ (reconcile_events_log P s)) as (Ht & _ & _).
  split; [by rewrite HD|]. rewrite HE.
  split; [|split].
  - rewrite !cmds_app, cmds_render_infos. reflexivity.
  - rewrite !tracked_app, Ht, tracked_render_infos. reflexivity.
  - rewrite !app_assoc. apply last_snoc.
Qed.

Lemma Deploy_success_witness :
  let P := rendering "kind: ResourceList" (inr [inr "a: 1"]) in
  let b := [graph.mkArtifact "img" "v1"] in
  (Deploy P b Inputs.empty_dir).1 = (Some ["a: 1"], None) ∧
  cmds (events (Deploy P b) Inputs.empty_dir) =
    cmds (events (kptfileInitIfNot P) Inputs.empty_dir)
    ++ [["fn"; "source"; "app"]; ["live"; "apply"; "app"]] ∧
  tracked (events (Deploy P b) Inputs.empty_dir) = [b] ∧
  last (events (Deploy P b) Inputs.empty_dir) = Some (EvTrackBuildArtifacts b).
Proof.
  intros P b.
  apply (Deploy_success P b Inputs.empty_dir); vm_compute; reflexivity.
Defined.

(** X20: [Deploy] itself writes no file, logs no warning and does not
    touch the Deployer: its writes and warnings are those of the
    reconciler, the Deployer it leaves is the one the reconciler left,
    and it registers build artifacts at most once. *)
Theorem Deploy_frame {Ext} (P : Platform Ext) builds (s : State Ext) :
  writes (events (Deploy P builds) s) = writes (events (kptfileInitIfNot P) s) ∧
  warnings (events (Deploy P builds) s) = warnings (events (kptfileInitIfNot P) s) ∧
  self (Deploy P builds s).2 = self (kptfileInitIfNot P s).2 ∧
  (length (tracked (events (Deploy P builds) s)) ≤ 1)%nat.
Proof.
  destruct (reconcile_events_only _ (reconcile_events_log P s)) as (Ht & _ & _).
  destruct (kptfileInitIfNot P s) as [[e|] s1] eqn:Hr.
  - rewrite (Deploy_events_failed P builds s s1 e Hr), Ht.
    rewrite (Deploy_failed_reconcile P builds s s1 e Hr). cbn. repeat split; lia.
  - pose proof (Deploy_reconciled P builds s s1 Hr) as HD. cbv zeta in HD.
    rewrite (Deploy_events P builds s s1 Hr).
    rewrite !writes_app, !warnings_app, !tracked_app, Ht.
    rewrite writes_render_infos, warnings_render_infos, tracked_render_infos.
    rewrite HD.
    destruct (exit_err _); cbn; rewrite ?app_nil_r; repeat split; lia.
Qed.

(** X21: when the reconciler returns an error, [Cleanup] returns that
    same error and stops there: [kpt live destroy] is not started. *)
Theorem Cleanup_aborts_on_reconcile_error {Ext} (P : Platform Ext) (s : State Ext) e :
  (kptfileInitIfNot P s).1 = Some e →
  Cleanup P s = (Some e, (kptfileInitIfNot P s).2).
Proof.
  intros Hr. apply Cleanup_failed_reconcile. by apply reconcile_result.
Qed.

Lemma Cleanup_aborts_on_reconcile_error_witness :
  let P := failing ["live"; "init"] in
  Cleanup P Inputs.empty_dir
    = (Some (liveInitErr (extErr "exit status 1") "app"),
       (kptfileInitIfNot P Inputs.empty_dir).2).
Proof.
  intros P.
  apply (Cleanup_aborts_on_reconcile_error P Inputs.empty_dir
           (liveInitErr (extErr "exit status 1") "app")).
  vm_compute; reflexivity.
Defined.

(** X22: when the reconciler returns no error, [Cleanup] adds exactly one
    effect to those of the reconciler: [kpt live destroy] with the
    directory and the flags of the Deployer (the apply flags are not
    passed), started on the files the reconciler left.  It returns nil
    when that command succeeds and [liveDestroyErr] with the failure and
    the directory when it fails. *)
Theorem Cleanup_destroys {Ext} (P : Platform Ext) (s : State Ext) :
  let s1 := (kptfileInitIfNot P s).2 in
  let k := self s in
  let args := ["live"; "destroy"; applyDir k] ++ Flags k in
  let o := kpt P args (files s1) (outside s1) in
  (kptfileInitIfNot P s).1 = None →
  events (Cleanup P) s = events (kptfileInitIfNot P) s ++ [EvRunCmd args (files s1)] ∧
  (Cleanup P s).1 =
    match exit_err o with
    | Some e => Some (liveDestroyErr e (applyDir k))
    | None => None
    end ∧
  self (Cleanup P s).2 = self s1.
Proof.
  intros s1 k args o Hr.
  pose proof (reconcile_result P s _ Hr) as Hr'. fold s1 in Hr'.
  pose proof (reconcile_liveDestroyArgs P s) as Ha. fold s1 k in Ha.
  pose proof (reconcile_applyDir P s) as Hd. fold s1 k in Hd.
  pose proof (Cleanup_reconciled P s s1 Hr') as HC. cbv zeta in HC.
  rewrite Ha, Hd in HC.
  split; [exact (Cleanup_events P s s1 Hr')|].
  rewrite HC. split; reflexivity.
Qed.

Lemma Cleanup_destroys_witness :
  let P := failing ["live"; "destroy"] in
  let s := Inputs.empty_dir in
  let s1 := (kptfileInitIfNot P s).2 in
  events (Cleanup P) s
    = events (kptfileInitIfNot P) s ++ [EvRunCmd ["live"; "destroy"; "app"] (files s1)] ∧
  (Cleanup P s).1 = Some (liveDestroyErr (extErr "exit status 1") "app") ∧
  self (Cleanup P s).2 = self s1.
Proof.
  intros P s s1.
  apply (Cleanup_destroys P s). vm_compute; reflexivity.
Defined.

(** X23: under the contract of [kpt live init], whenever [Cleanup] starts
    [kpt live destroy], the reconciler has returned no error and the
    Kptfile the command is started on holds an inventory block; this
    includes a directory that had no Kptfile or no inventory before. *)
Theorem destroy_requires_inventory {Ext} (P : Platform Ext) (s : State Ext) :
  live_init_contract P →
  ∀ args fs,
    EvRunCmd args fs ∈ events (Cleanup P) s →
    is_live_destroy args = true →
    (kptfileInitIfNot P s).1 = None ∧
    has_inventory fs (kptFilePath P (self s)).
Proof.
  intros Hc args fs Hin Hd.
  destruct (kptfileInitIfNot P s) as [[e|] s1] eqn:Hr.
  - exfalso.
    assert (events (Cleanup P) s = events (kptfileInitIfNot P) s) as Hev.
    { unfold events. by rewrite (Cleanup_failed_reconcile P s s1 e Hr), Hr. }
    rewrite Hev in Hin. rewrite (reconcile_no_destroy P s args fs Hin) in Hd.
    discriminate Hd.
  - split; [reflexivity|].
    rewrite (Cleanup_events P s s1 Hr) in Hin.
    apply elem_of_app in Hin as [Hin|Hin].
    { rewrite (reconcile_no_destroy P s args fs Hin) in Hd. discriminate Hd. }
    apply elem_of_cons in Hin as [Heq|Hin]; [|by apply elem_of_nil in Hin].
    injection Heq as _ ->. exact (reconciled_has_inventory P s s1 Hc Hr).
Qed.

Lemma destroy_requires_inventory_witness :
  (kptfileInitIfNot Scripted.platform Inputs.empty_dir).1 = None ∧
  has_inventory (files (kptfileInitIfNot Scripted.platform Inputs.empty_dir).2)
                "app/Kptfile".
Proof.
  apply (destroy_requires_inventory Scripted.platform Inputs.empty_dir
           Scripted_live_init_contract ["live"; "destroy"; "app"]).
  - vm_compute. repeat constructor.
  - reflexivity.
Defined.

(** ** From the options to the command line *)

Lemma liveInitArgs_flags k :
  liveInitArgs k =
    ["live"; "init"; applyDir k] ++ Flags k
    ++ flag_if_set "--name" (Name k)
    ++ flag_if_set "--inventory-id" (InventoryID k)
    ++ flag_if_set "--namespace" (or_else (namespace k) (InventoryNamespace k))
    ++ (if Force k then ["--force"; "true"] else []).
Proof.
  unfold liveInitArgs, flag_if_set, or_else.
  generalize (Name k) (InventoryID k) (namespace k) (InventoryNamespace k)
    (Force k) (Flags k) (applyDir k).
  intros nm id ns ins force fl dir.
  destruct (decide (nm ≠ "")), (decide (id ≠ "")), (decide (ns ≠ ""));
    try destruct (decide (ins ≠ "")); repeat (destruct (decide _); try tauto);
    destruct force; cbn [app]; rewrite <- ?app_assoc, ?app_nil_r; reflexivity.
Qed.

Lemma NewDeployer_fields ns d opts :
  let k := NewDeployer ns d opts in
  applyDir k = latestV2.Dir d ∧ Flags k = latestV2.Flags d ∧
  Force k = latestV2.Force d ∧ namespace k = ns ∧
  Name k = or_else (config.InventoryName opts) (latestV2.Name d) ∧
  InventoryID k = or_else (config.InventoryID opts) (latestV2.InventoryID d) ∧
  InventoryNamespace k
    = or_else (config.InventoryNamespace opts) (latestV2.InventoryNamespace d).
Proof.
  intros k. subst k. unfold NewDeployer, or_else.
  destruct (decide (config.InventoryNamespace opts ≠ "")),
    (decide (config.InventoryID opts ≠ "")),
    (decide (config.InventoryName opts ≠ ""));
    destruct d; repeat split; reflexivity.
Qed.

(** X24: what [kpt live init] is given by a Deployer fresh from
    [NewDeployer].  For the name and the inventory id a command-line
    option wins over the configured value; for the namespace the kube
    namespace of the run wins over the inventory-namespace option, which
    wins over the configured inventory-namespace; a value that is empty
    everywhere adds no argument. *)
Theorem bootstrap_arguments_of_NewDeployer (ns : string) (d : latestV2.KptV2Deploy)
    (opts : config.SkaffoldOptions) :
  liveInitArgs (NewDeployer ns d opts) =
    ["live"; "init"; latestV2.Dir d] ++ latestV2.Flags d
    ++ flag_if_set "--name" (or_else (config.InventoryName opts) (latestV2.Name d))
    ++ flag_if_set "--inventory-id"
         (or_else (config.InventoryID opts) (latestV2.InventoryID d))
    ++ flag_if_set "--namespace"
         (or_else ns (or_else (config.InventoryNamespace opts)
                              (latestV2.InventoryNamespace d)))
    ++ (if latestV2.Force d then ["--force"; "true"] else []).
Proof.
  rewrite liveInitArgs_flags.
  destruct (NewDeployer_fields ns d opts) as (-> & -> & -> & -> & -> & -> & ->).
  reflexivity.
Qed.

(** X25: [NewDeployer] writes the options into the schema it is given.
    A Deployer made again from the schema of an earlier one, with the
    same options or with none, has the same schema and directory: the
    options given once stay in the configuration. *)
Theorem NewDeployer_options_stay (ns ns' : string) (d : latestV2.KptV2Deploy)
    (opts : config.SkaffoldOptions) :
  let k := NewDeployer ns d opts in
  NewDeployer ns (KptV2Deploy k) opts = k ∧
  KptV2Deploy (NewDeployer ns' (KptV2Deploy k) (config.mkSkaffoldOptions "" "" ""))
    = KptV2Deploy k ∧
  applyDir k = latestV2.Dir d.
Proof.
  intros k. subst k. unfold NewDeployer.
  cbn [config.InventoryNamespace config.InventoryID config.InventoryName].
  rewrite !(decide_False (P := "" ≠ "")) by (intros H; by apply H).
  destruct (decide (config.InventoryNamespace opts ≠ "")),
    (decide (config.InventoryID opts ≠ "")),
    (decide (config.InventoryName opts ≠ ""));
    destruct d; repeat split; reflexivity.
Qed.
